(** * Wallet wiring and swap callbacks of the web interface

    A shallow embedding of three source files of the web application:

    - [components/Web3Provider/wagmiConfig.ts]: the ordered RPC transport
      list of a chain and the list of wallet connectors ([WagmiConfig]);
    - the viem-client to ethers-provider adapter with its [WeakMap] cache
      ([EthersAdapter]);
    - [hooks/useSwapCallback.tsx]: the fee fields of the universal router,
      the swap callback and the status of a submitted swap
      ([SwapCallback]).

    JavaScript values are modelled by their TypeScript types: an optional
    value is an [option], an object a record, a string enum an inductive
    type.  Objects compared by identity carry a reference.  Code that
    throws or calls into the application returns an [Outcome]. *)

From stdpp Require Import gmap strings list fin_maps pretty.

Set Warnings "-clear-no-such-hyp".

Open Scope string_scope.
Open Scope list_scope.

(** ** Results of code that may throw *)

(** What a JavaScript call (or an awaited promise) ends in: a value, or a
    thrown error (a rejected promise). *)
Inductive Outcome (E A : Type) : Type :=
  | Returned (a : A)
  | Thrown (e : E).
Arguments Returned {E A} a.
Arguments Thrown {E A} e.

Definition is_thrown {E A} (o : Outcome E A) : bool :=
  match o with Thrown _ => true | Returned _ => false end.

(** One call after another: an error of the first is the error of both. *)
Definition and_then {E A B} (o : Outcome E A) (k : A → Outcome E B)
  : Outcome E B :=
  match o with
  | Returned a => k a
  | Thrown e => Thrown e
  end.

(** * wagmiConfig.ts *)
Module WagmiConfig.

(** One entry of [chain.rpcUrls]: [{ http: string[] }]. *)
Record RpcUrlEntry := { http : list string }.

(** [chain.rpcUrls]; every entry is read through [?.], so each one may be
    absent. *)
Record RpcUrls := {
  rpc_interface : option RpcUrlEntry;
  rpc_default : option RpcUrlEntry;
  rpc_public : option RpcUrlEntry;
  rpc_fallback : option RpcUrlEntry
}.

(** The part of [ReturnType<typeof getChainInfo>] that is read here. *)
Record ChainInfo := { rpcUrls : RpcUrls }.

(** [entry?.http ?? []] *)
Definition http_or_empty (entry : option RpcUrlEntry) : list string :=
  match entry with
  | Some e => http e
  | None => []
  end.

(** [Boolean(s)] on a string: only the empty string is falsy. *)
Definition Boolean (s : string) : bool := negb (String.eqb s "").

(** A JavaScript [Set] of strings, as the list of its members in insertion
    order.  [Set.prototype.add] leaves the set alone when the value is
    already a member, and appends it otherwise. *)
Definition Set_add (s : list string) (x : string) : list string :=
  if bool_decide (x ∈ s) then s else s ++ [x].

(** [new Set(iterable)]: the members are added one by one, from the left. *)
Definition Set_new (l : list string) : list string := foldl Set_add [] l.

(** [Array.from(set)]: the members in insertion order. *)
Definition Array_from (s : list string) : list string := s.

Definition orderedRpcUrls (chain : ChainInfo) : list string :=
  http_or_empty (rpc_interface (rpcUrls chain))
  ++ http_or_empty (rpc_default (rpcUrls chain))
  ++ http_or_empty (rpc_public (rpcUrls chain))
  ++ http_or_empty (rpc_fallback (rpcUrls chain)).

Definition orderedTransportUrls (chain : ChainInfo) : list string :=
  Array_from (Set_new (List.filter Boolean (orderedRpcUrls chain))).

(** The list deduplication in the words of the specification: an element
    is kept where it does not occur among the elements before it.
    [before] is the part of the list already passed. *)
Fixpoint first_occurrences_from (before l : list string) : list string :=
  match l with
  | [] => []
  | x :: l' =>
      (if bool_decide (x ∈ before) then [] else [x])
      ++ first_occurrences_from (before ++ [x]) l'
  end.

Definition first_occurrences (l : list string) : list string :=
  first_occurrences_from [] l.

(** ** Connectors *)

Inductive ConnectorKind :=
  | KPorto | KBinance | KWalletConnect | KEmbeddedWallet
  | KCoinbaseWallet | KSafe | KMock.

Global Instance ConnectorKind_eq_dec : EqDecision ConnectorKind.
Proof. solve_decision. Defined.

Section Connectors.

(** Constants and environment probes imported from other modules. *)
Variable WC_PARAMS : string.
Variable UNISWAP_WEB_URL : string.
Variable UNISWAP_LOGO : string.
Variable PLAYWRIGHT_CONNECT_ADDRESS : string.
Variable isTestEnv : bool.
Variable isPlaywrightEnv : bool.

(** A connector, by the factory that made it and the arguments it got. *)
Inductive Connector :=
  | porto
  | BinanceConnector (showQrCodeModal : bool)
  | walletConnect (params : string)
  | embeddedWallet
  | coinbaseWallet (appName appLogoUrl : string) (reloadOnDisconnect : bool)
  | safe
  | mock (accounts : list string).

Definition kind (c : Connector) : ConnectorKind :=
  match c with
  | porto => KPorto
  | BinanceConnector _ => KBinance
  | walletConnect _ => KWalletConnect
  | embeddedWallet => KEmbeddedWallet
  | coinbaseWallet _ _ _ => KCoinbaseWallet
  | safe => KSafe
  | mock _ => KMock
  end.

Definition baseConnectors : list Connector :=
  [porto; BinanceConnector true]
  ++ (if isTestEnv && negb isPlaywrightEnv then [] else [walletConnect WC_PARAMS])
  ++ [embeddedWallet;
      coinbaseWallet "Uniswap" (String.append UNISWAP_WEB_URL UNISWAP_LOGO) false;
      safe].

Definition createWagmiConnectors (includeMockConnector : bool) : list Connector :=
  if includeMockConnector
  then baseConnectors ++ [mock [PLAYWRIGHT_CONNECT_ADDRESS]]
  else baseConnectors.

Definition defaultConnectors : list Connector :=
  createWagmiConnectors isPlaywrightEnv.

(** The connectors in their fixed order. *)
Definition all_kinds : list ConnectorKind :=
  [KPorto; KBinance; KWalletConnect; KEmbeddedWallet; KCoinbaseWallet; KSafe; KMock].

(** Which of them a configuration keeps. *)
Definition kept (includeMockConnector : bool) (k : ConnectorKind) : bool :=
  match k with
  | KWalletConnect => negb (isTestEnv && negb isPlaywrightEnv)
  | KMock => includeMockConnector
  | _ => true
  end.

End Connectors.

(** ** Properties of the transport list *)

Lemma Set_add_elem s x y : y ∈ Set_add s x ↔ y ∈ s ∨ y = x.
Proof.
  unfold Set_add. case_bool_decide as Hx.
  - split; [by left |]. intros [? | ->]; done.
  - rewrite elem_of_app, list_elem_of_singleton. done.
Qed.

Lemma Set_add_NoDup s x : NoDup s → NoDup (Set_add s x).
Proof.
  intros Hs. unfold Set_add. case_bool_decide as Hx; [done |].
  apply NoDup_app. split_and!; [done | | apply NoDup_singleton].
  intros y Hy ->%list_elem_of_singleton. done.
Qed.

(** Only the members of [before] matter, not their order or number. *)
Lemma first_occurrences_from_ext l : ∀ s t : list string,
  (∀ y, y ∈ s ↔ y ∈ t) →
  first_occurrences_from s l = first_occurrences_from t l.
Proof.
  induction l as [| z l IH]; intros s t Hst; simpl; [done |].
  rewrite (IH (s ++ [z]) (t ++ [z])).
  - f_equal. repeat case_bool_decide; naive_solver.
  - intros y. rewrite !elem_of_app. naive_solver.
Qed.

(** Adding a list to a set appends the elements that are new, each at its
    first occurrence. *)
Lemma foldl_Set_add l : ∀ s : list string,
  foldl Set_add s l = s ++ first_occurrences_from s l.
Proof.
  induction l as [| x l IH]; intros s; simpl.
  - by rewrite app_nil_r.
  - rewrite IH. unfold Set_add. case_bool_decide as Hx; simpl.
    + f_equal. apply first_occurrences_from_ext. intros y.
      rewrite elem_of_app, list_elem_of_singleton. naive_solver.
    + by rewrite <- app_assoc.
Qed.

Lemma Set_new_first_occurrences l : Set_new l = first_occurrences l.
Proof. unfold Set_new, first_occurrences. by rewrite foldl_Set_add. Qed.

Lemma foldl_Set_add_NoDup s l : NoDup s → NoDup (foldl Set_add s l).
Proof.
  revert s. induction l as [| x l IH]; intros s Hs; simpl; [done |].
  apply IH, Set_add_NoDup, Hs.
Qed.

Lemma foldl_Set_add_elem s l y : y ∈ foldl Set_add s l ↔ y ∈ s ∨ y ∈ l.
Proof.
  revert s. induction l as [| x l IH]; intros s; simpl.
  - rewrite elem_of_nil. naive_solver.
  - rewrite IH, Set_add_elem, elem_of_cons. naive_solver.
Qed.

Lemma Boolean_true s : Boolean s = true ↔ s ≠ "".
Proof.
  unfold Boolean. rewrite negb_true_iff.
  destruct (String.eqb_spec s ""); split; congruence.
Qed.

(** C1: [orderedTransportUrls] is the interface, default, public and
    fallback HTTP lists of the chain, in that order, a missing entry
    counting as empty, without the falsy (empty) strings and with every URL
    kept at its first occurrence only; the result has no duplicates and
    holds exactly the non-empty URLs of the four lists. *)
Theorem orderedTransportUrls_spec (chain : ChainInfo) :
  let sources :=
    default [] (http <$> rpc_interface (rpcUrls chain))
    ++ default [] (http <$> rpc_default (rpcUrls chain))
    ++ default [] (http <$> rpc_public (rpcUrls chain))
    ++ default [] (http <$> rpc_fallback (rpcUrls chain)) in
  orderedTransportUrls chain
    = first_occurrences (List.filter (λ u, bool_decide (u ≠ "")) sources)
  ∧ NoDup (orderedTransportUrls chain)
  ∧ (∀ u, u ∈ orderedTransportUrls chain ↔ u ∈ sources ∧ u ≠ "").
Proof.
  intros sources.
  assert (Hsrc : orderedRpcUrls chain = sources).
  { unfold orderedRpcUrls, sources, http_or_empty.
    destruct chain as [[[i|] [d|] [p|] [f|]]]; reflexivity. }
  assert (Hflt : List.filter Boolean sources
                 = List.filter (λ u, bool_decide (u ≠ "")) sources).
  { apply List.filter_ext. intros u.
    destruct (Boolean u) eqn:Hu.
    - symmetry. apply bool_decide_eq_true. by apply Boolean_true.
    - symmetry. apply bool_decide_eq_false. intros Hne.
      apply Boolean_true in Hne. congruence. }
  unfold orderedTransportUrls, Array_from. rewrite Hsrc.
  split_and!.
  - by rewrite Set_new_first_occurrences, Hflt.
  - apply foldl_Set_add_NoDup, NoDup_nil_2.
  - intros u. unfold Set_new. rewrite foldl_Set_add_elem, elem_of_nil.
    rewrite list_elem_of_In, List.filter_In, <- list_elem_of_In, Boolean_true.
    naive_solver.
Qed.

Example orderedTransportUrls_example :
  orderedTransportUrls
    {| rpcUrls := {| rpc_interface := Some {| http := ["a"; ""; "b"] |};
                     rpc_default := None;
                     rpc_public := Some {| http := ["b"; "c"; "a"] |};
                     rpc_fallback := Some {| http := ["d"; "c"] |} |} |}
  = ["a"; "b"; "c"; "d"].
Proof. vm_compute. reflexivity. Qed.

(** ** Properties of the connector list *)

(** C7: the connectors are Porto, Binance, WalletConnect, the embedded
    wallet, Coinbase and Safe in this order, followed by the mock
    connector; WalletConnect is left out exactly in a test environment
    that is not Playwright, the mock connector is there (as the last one)
    exactly when [includeMockConnector] is set, and the default
    configuration sets it to [isPlaywrightEnv]. *)
Theorem createWagmiConnectors_spec
    (WC_PARAMS UNISWAP_WEB_URL UNISWAP_LOGO PLAYWRIGHT_CONNECT_ADDRESS : string)
    (isTestEnv isPlaywrightEnv includeMockConnector : bool) :
  let connectors :=
    createWagmiConnectors WC_PARAMS UNISWAP_WEB_URL UNISWAP_LOGO
      PLAYWRIGHT_CONNECT_ADDRESS isTestEnv isPlaywrightEnv includeMockConnector in
  kind <$> connectors
    = List.filter (kept isTestEnv isPlaywrightEnv includeMockConnector) all_kinds
  ∧ (KWalletConnect ∈ kind <$> connectors
     ↔ ¬ (isTestEnv = true ∧ isPlaywrightEnv = false))
  ∧ (KMock ∈ kind <$> connectors ↔ includeMockConnector = true)
  ∧ (last (kind <$> connectors) = Some KMock ↔ includeMockConnector = true)
  ∧ defaultConnectors WC_PARAMS UNISWAP_WEB_URL UNISWAP_LOGO
      PLAYWRIGHT_CONNECT_ADDRESS isTestEnv isPlaywrightEnv
    = createWagmiConnectors WC_PARAMS UNISWAP_WEB_URL UNISWAP_LOGO
        PLAYWRIGHT_CONNECT_ADDRESS isTestEnv isPlaywrightEnv isPlaywrightEnv.
Proof.
  destruct isTestEnv, isPlaywrightEnv, includeMockConnector; cbn;
    (split_and!; [reflexivity | | | | reflexivity]);
    rewrite ?elem_of_cons, ?elem_of_nil; naive_solver.
Qed.

(** ** More on the transport list *)

(** The URLs of the four lists, in the order the code spreads them. *)
Lemma orderedTransportUrls_elem (chain : ChainInfo) (u : string) :
  u ∈ orderedTransportUrls chain ↔ u ∈ orderedRpcUrls chain ∧ u ≠ "".
Proof.
  unfold orderedTransportUrls, Array_from, Set_new.
  rewrite foldl_Set_add_elem, elem_of_nil.
  rewrite list_elem_of_In, List.filter_In, <- list_elem_of_In, Boolean_true.
  naive_solver.
Qed.

Lemma first_occurrences_from_sublist l : ∀ s : list string,
  first_occurrences_from s l `sublist_of` l.
Proof.
  induction l as [| x l IH]; intros s; simpl; [done |].
  case_bool_decide; simpl.
  - apply sublist_cons, IH.
  - apply sublist_skip, IH.
Qed.

Lemma filter_sublist (f : string → bool) (l : list string) :
  List.filter f l `sublist_of` l.
Proof.
  induction l as [| x l IH]; simpl; [done |].
  destruct (f x); [by apply sublist_skip | by apply sublist_cons].
Qed.

(** Adding members a set already has leaves the set as it is. *)
Lemma foldl_Set_add_absorb l : ∀ s : list string,
  (∀ y, y ∈ l → y ∈ s) → foldl Set_add s l = s.
Proof.
  induction l as [| x l IH]; intros s Hl; simpl; [done |].
  assert (Hx : Set_add s x = s).
  { unfold Set_add. rewrite bool_decide_eq_true_2; [done |].
    apply Hl. by left. }
  rewrite Hx. apply IH. intros y Hy. apply Hl. by right.
Qed.

(** X1: the transports keep the priority order of the sources: the result
    is a subsequence of the interface, default, public and fallback lists
    put one after the other, so it is never longer than they are. *)
Theorem orderedTransportUrls_sublist (chain : ChainInfo) :
  orderedTransportUrls chain `sublist_of` orderedRpcUrls chain
  ∧ (length (orderedTransportUrls chain) ≤ length (orderedRpcUrls chain))%nat.
Proof.
  assert (Hsub : orderedTransportUrls chain `sublist_of` orderedRpcUrls chain).
  { unfold orderedTransportUrls, Array_from.
    rewrite Set_new_first_occurrences. unfold first_occurrences.
    etrans; [apply first_occurrences_from_sublist | apply filter_sublist]. }
  split; [done | by apply sublist_length].
Qed.

(** X2: the first transport is the first URL of the interface list, when
    that list starts with a URL that is not empty. *)
Theorem orderedTransportUrls_head (chain : ChainInfo) (entry : RpcUrlEntry)
    (u : string) (rest : list string) :
  rpc_interface (rpcUrls chain) = Some entry →
  http entry = u :: rest →
  u ≠ "" →
  head (orderedTransportUrls chain) = Some u.
Proof.
  intros Hentry Hhttp Hu.
  unfold orderedTransportUrls, Array_from.
  rewrite Set_new_first_occurrences. unfold first_occurrences, orderedRpcUrls.
  rewrite Hentry. cbn. rewrite Hhttp. cbn.
  apply Boolean_true in Hu. rewrite Hu. cbn.
  rewrite bool_decide_eq_false_2; [done |]. apply not_elem_of_nil.
Qed.

(** X3: a fallback list that brings nothing new changes nothing: when each
    of its URLs is empty or already in one of the three lists before it,
    the transports are those of the chain without a fallback entry. *)
Theorem orderedTransportUrls_fallback_absorbed (chain : ChainInfo) :
  (∀ u, u ∈ http_or_empty (rpc_fallback (rpcUrls chain)) →
        u = ""
        ∨ u ∈ http_or_empty (rpc_interface (rpcUrls chain))
              ++ http_or_empty (rpc_default (rpcUrls chain))
              ++ http_or_empty (rpc_public (rpcUrls chain))) →
  orderedTransportUrls chain
  = orderedTransportUrls
      {| rpcUrls := {| rpc_interface := rpc_interface (rpcUrls chain);
                       rpc_default := rpc_default (rpcUrls chain);
                       rpc_public := rpc_public (rpcUrls chain);
                       rpc_fallback := None |} |}.
Proof.
  intros Habs. unfold orderedTransportUrls, Array_from, Set_new, orderedRpcUrls.
  cbn. rewrite app_nil_r.
  rewrite (app_assoc _ _ (_ ++ http_or_empty (rpc_fallback _))).
  rewrite (app_assoc _ _ (http_or_empty (rpc_fallback _))).
  rewrite <- (app_assoc (http_or_empty (rpc_interface _))).
  rewrite List.filter_app, foldl_app.
  apply foldl_Set_add_absorb. intros y Hy.
  apply list_elem_of_In, List.filter_In in Hy as [Hy Hby].
  apply list_elem_of_In in Hy. apply Boolean_true in Hby.
  rewrite foldl_Set_add_elem. right.
  rewrite list_elem_of_In, List.filter_In, <- list_elem_of_In, Boolean_true.
  destruct (Habs y Hy) as [-> | Hin]; done.
Qed.

(** X4: a chain is left without any transport exactly when its four lists
    hold no URL other than the empty string. *)
Theorem orderedTransportUrls_nil_iff (chain : ChainInfo) :
  orderedTransportUrls chain = [] ↔ ∀ u, u ∈ orderedRpcUrls chain → u = "".
Proof.
  split.
  - intros Hnil u Hu. destruct (decide (u = "")) as [| Hne]; [done |].
    assert (Hin : u ∈ orderedTransportUrls chain)
      by (by apply orderedTransportUrls_elem).
    rewrite Hnil in Hin. by apply elem_of_nil in Hin.
  - intros Hall. destruct (orderedTransportUrls chain) as [| u l] eqn:Hres;
      [done |].
    assert (Hin : u ∈ orderedTransportUrls chain) by (rewrite Hres; by left).
    apply orderedTransportUrls_elem in Hin as [Hin Hne].
    by destruct Hne, (Hall u Hin).
Qed.

Definition sample_chain : ChainInfo :=
  {| rpcUrls := {| rpc_interface := Some {| http := ["a"; ""; "b"] |};
                   rpc_default := None;
                   rpc_public := Some {| http := ["b"; "c"; "a"] |};
                   rpc_fallback := Some {| http := [""; "c"; "a"] |} |} |}.

Lemma orderedTransportUrls_head_witness :
  head (orderedTransportUrls sample_chain) = Some "a".
Proof.
  apply (orderedTransportUrls_head sample_chain {| http := ["a"; ""; "b"] |}
           "a" [""; "b"]); [reflexivity | reflexivity | discriminate].
Defined.

Lemma orderedTransportUrls_fallback_absorbed_witness :
  orderedTransportUrls sample_chain
  = orderedTransportUrls
      {| rpcUrls := {| rpc_interface := Some {| http := ["a"; ""; "b"] |};
                       rpc_default := None;
                       rpc_public := Some {| http := ["b"; "c"; "a"] |};
                       rpc_fallback := None |} |}.
Proof.
  apply (orderedTransportUrls_fallback_absorbed sample_chain).
  intros u Hu. cbn in Hu.
  repeat (apply elem_of_cons in Hu as [-> | Hu]);
    [by left | right; set_solver | right; set_solver |].
  by apply elem_of_nil in Hu.
Defined.

(** ** The configuration and its response handler *)

(** A chain of [ORDERED_EVM_CHAINS]: a chain-info object, of which the id
    and the RPC URLs are read. *)
Record Chain := { id : Z; chainInfo : ChainInfo }.

(** The part of a fetch [Response] that is read. *)
Record Response := { status : Z }.

Record LogExtra := { extra_chainId : Z; extra_url : string }.

(** A call of the logger: [logger.warn(fileName, functionName, message,
    { extra })] or [logger.error(new Error(message), { extra, tags })]. *)
Inductive LogEntry :=
  | logger_warn (fileName functionName message : string) (extra : LogExtra)
  | logger_error (message : string) (extra : LogExtra)
      (tag_file tag_function : string).

Definition entry_extra (e : LogEntry) : LogExtra :=
  match e with
  | logger_warn _ _ _ extra => extra
  | logger_error _ extra _ _ => extra
  end.

Definition is_warning (e : LogEntry) : bool :=
  match e with
  | logger_warn _ _ _ _ => true
  | logger_error _ _ _ _ => false
  end.

(** A response handler acts on the log, the calls of the logger so far,
    oldest first. *)
Definition Handler : Type :=
  Response → Chain → string → list LogEntry → list LogEntry.

(** [http(url, { onFetchResponse })] *)
Record HttpTransport := {
  url : string;
  onFetchResponse : Response → list LogEntry → list LogEntry
}.

(** The argument of [createClient]; [transport] is the list given to
    [fallback]. *)
Record ClientConfig := {
  client_chain : Chain;
  batch_multicall : bool;
  pollingInterval : Z;
  transport : list HttpTransport
}.

Section Config.

(** The error of [getNonEmptyArrayOrThrow]. *)
Context {E : Type}.

Variable WC_PARAMS : string.
Variable UNISWAP_WEB_URL : string.
Variable UNISWAP_LOGO : string.
Variable PLAYWRIGHT_CONNECT_ADDRESS : string.
Variable isTestEnv : bool.
Variable isPlaywrightEnv : bool.
Variable isTestnetChain : Z → bool.
Variable ORDERED_EVM_CHAINS : list Chain.
Variable getNonEmptyArrayOrThrow : list Chain → Outcome E (list Chain).

(** The argument of [createConfig]. *)
Record Config := {
  chains : list Chain;
  connectors : list Connector;
  client : Chain → ClientConfig
}.

Definition defaultOnFetchResponse : Handler :=
  λ response chain url log,
    if negb (status response =? 200)%Z
    then
      let message :=
        String.append "RPC provider returned non-200 status: "
          (pretty (status response)) in
      if isTestnetChain (id chain)
      then log ++ [logger_warn "wagmiConfig.ts" "client" message
                     {| extra_chainId := id chain; extra_url := url |}]
      else log ++ [logger_error message
                     {| extra_chainId := id chain; extra_url := url |}
                     "wagmiConfig.ts" "client"]
    else log.

Definition createWagmiConfig (connectors' : list Connector)
    (onFetchResponse' : option Handler) : Outcome E Config :=
  let handler := default defaultOnFetchResponse onFetchResponse' in
  match getNonEmptyArrayOrThrow ORDERED_EVM_CHAINS with
  | Thrown e => Thrown e
  | Returned chains' =>
      Returned
        {| chains := chains';
           connectors := connectors';
           client := λ chain,
             {| client_chain := chain;
                batch_multicall := true;
                pollingInterval := 12000;
                transport :=
                  (λ url',
                     {| url := url';
                        onFetchResponse :=
                          λ response, handler response chain url' |})
                  <$> orderedTransportUrls (chainInfo chain) |} |}
  end.

Definition wagmiConfig : Outcome E Config :=
  createWagmiConfig
    (defaultConnectors WC_PARAMS UNISWAP_WEB_URL UNISWAP_LOGO
       PLAYWRIGHT_CONNECT_ADDRESS isTestEnv isPlaywrightEnv)
    None.

Lemma orderedTransportUrls_NoDup (chain : ChainInfo) :
  NoDup (orderedTransportUrls chain).
Proof. apply foldl_Set_add_NoDup, NoDup_nil_2. Qed.

Lemma createWagmiConfig_inv connectors' handler' config :
  createWagmiConfig connectors' handler' = Returned config →
  connectors config = connectors'
  ∧ ∀ chain,
      transport (client config chain)
      = (λ url',
           {| url := url';
              onFetchResponse :=
                λ response,
                  default defaultOnFetchResponse handler' response chain url' |})
        <$> orderedTransportUrls (chainInfo chain).
Proof.
  unfold createWagmiConfig.
  destruct (getNonEmptyArrayOrThrow ORDERED_EVM_CHAINS); [| done].
  by intros [= <-].
Qed.

(** X5: in a configuration that [createWagmiConfig] made, the client of a
    chain falls back over one HTTP transport per transport URL of the
    chain, in their order; no two of them have the same URL, none has an
    empty URL, and each hands what it fetched to the response handler
    together with this chain and its own URL. *)
Theorem createWagmiConfig_transports (connectors' : list Connector)
    (handler' : option Handler) (config : Config) (chain : Chain) :
  createWagmiConfig connectors' handler' = Returned config →
  url <$> transport (client config chain)
    = orderedTransportUrls (chainInfo chain)
  ∧ NoDup (url <$> transport (client config chain))
  ∧ ∀ t, t ∈ transport (client config chain) →
      url t ≠ ""
      ∧ url t ∈ orderedRpcUrls (chainInfo chain)
      ∧ ∀ response log,
          onFetchResponse t response log
          = default defaultOnFetchResponse handler' response chain (url t) log.
Proof.
  intros [_ Htr]%createWagmiConfig_inv.
  assert (Hurls : url <$> transport (client config chain)
                  = orderedTransportUrls (chainInfo chain)).
  { rewrite Htr, <- list_fmap_compose. cbn.
    rewrite <- (list_fmap_id (orderedTransportUrls _)) at 2.
    by apply list_fmap_ext. }
  split_and!.
  - done.
  - rewrite Hurls. apply orderedTransportUrls_NoDup.
  - intros t Ht.
    assert (Hin : url t ∈ orderedTransportUrls (chainInfo chain)).
    { rewrite <- Hurls. by apply list_elem_of_fmap_2. }
    apply orderedTransportUrls_elem in Hin as [Hin Hne].
    split_and!; [done | done |].
    rewrite Htr in Ht. apply list_elem_of_fmap in Ht as (u & -> & _). done.
Qed.

(** X6: in the default configuration a transport logs nothing on a
    response with status 200; on any other status it logs one entry, which
    carries the id of the chain and the URL of that transport, as a
    warning for a testnet chain and as an error for any other chain. *)
Theorem wagmiConfig_logs (config : Config) (chain : Chain)
    (t : HttpTransport) (response : Response) (log : list LogEntry) :
  wagmiConfig = Returned config →
  t ∈ transport (client config chain) →
  (status response = 200%Z → onFetchResponse t response log = log)
  ∧ (status response ≠ 200%Z →
     ∃ entry,
       onFetchResponse t response log = log ++ [entry]
       ∧ extra_chainId (entry_extra entry) = id chain
       ∧ extra_url (entry_extra entry) = url t
       ∧ is_warning entry = isTestnetChain (id chain)).
Proof.
  intros [_ Htr]%createWagmiConfig_inv Ht.
  rewrite Htr in Ht. apply list_elem_of_fmap in Ht as (u & -> & _).
  cbn. unfold defaultOnFetchResponse. split.
  - intros ->. done.
  - intros Hne. apply Z.eqb_neq in Hne. rewrite Hne. cbn.
    destruct (isTestnetChain (id chain)) eqn:Htest; eexists; done.
Qed.

End Config.

Definition sample_evm_chain : Chain := {| id := 11155111; chainInfo := sample_chain |}.

Definition sample_wagmiConfig : Outcome string Config :=
  wagmiConfig "wc" "https://app.uniswap.org" "/logo.png" "0xtest" false false
    (λ c, bool_decide (c = 11155111%Z)) [sample_evm_chain]
    (λ l, match l with [] => Thrown "empty" | _ => Returned l end).

Definition sample_config : Config :=
  match sample_wagmiConfig with
  | Returned config => config
  | Thrown _ => {| chains := []; connectors := []; client := λ chain,
                   {| client_chain := chain; batch_multicall := false;
                      pollingInterval := 0; transport := [] |} |}
  end.

Lemma createWagmiConfig_transports_witness :
  url <$> transport (client sample_config sample_evm_chain) = ["a"; "b"; "c"]
  ∧ NoDup (url <$> transport (client sample_config sample_evm_chain)).
Proof.
  destruct (createWagmiConfig_transports
              (λ c, bool_decide (c = 11155111%Z))
              [sample_evm_chain]
              (λ l, match l with [] => Thrown "empty" | _ => Returned l end)
              (defaultConnectors "wc" "https://app.uniswap.org" "/logo.png"
                 "0xtest" false false)
              None sample_config sample_evm_chain eq_refl)
    as (Hurls & Hnodup & _).
  split; [exact Hurls | exact Hnodup].
Defined.

Lemma wagmiConfig_logs_witness :
  ∃ entry t,
    transport (client sample_config sample_evm_chain) !! 1%nat = Some t
    ∧ onFetchResponse t {| status := 429 |} [] = [] ++ [entry]
    ∧ extra_chainId (entry_extra entry) = 11155111%Z
    ∧ extra_url (entry_extra entry) = url t
    ∧ is_warning entry = true.
Proof.
  destruct (transport (client sample_config sample_evm_chain) !! 1%nat)
    as [t |] eqn:Ht; [| discriminate].
  destruct (proj2 (wagmiConfig_logs "wc" "https://app.uniswap.org" "/logo.png"
              "0xtest" false false (λ c, bool_decide (c = 11155111%Z))
              [sample_evm_chain]
              (λ l, match l with [] => Thrown "empty" | _ => Returned l end)
              sample_config sample_evm_chain t {| status := 429 |} []
              eq_refl (list_elem_of_lookup_2 _ _ _ Ht)))
    as (entry & Hlog & Hid & Hurl & Hwarn); [discriminate |].
  exists entry, t. split_and!; [reflexivity | exact Hlog | exact Hid
                               | exact Hurl | exact Hwarn].
Defined.

End WagmiConfig.

(** * The viem client to ethers provider adapter *)
Module EthersAdapter.

(** The errors of this file: a property read on [undefined], which the
    file can raise by itself, and an error thrown by the constructor of
    [Web3Provider]. *)
Inductive Error :=
  | TypeError
  | ConstructorError (reason : string).

Section Adapter.

(** viem's [Transport] is handed on to the provider as it is. *)
Context {Transport : Type}.

Record ChainContract := { address : string }.
Record ChainContracts := { ensRegistry : option ChainContract }.
Record Chain := {
  chain_id : Z;
  chain_name : string;
  contracts : option ChainContracts
}.

(** A viem [Client] object.  [client_ref] is the identity of the object,
    the key of a [WeakMap].  The type [Client<Transport, Chain>] promises a
    chain; the code still tests for it, so the field is optional here. *)
Record Client := {
  client_ref : positive;
  chain : option Chain;
  transport : Transport
}.

(** The [Networkish] object given to the provider. *)
Record Network := {
  chainId : Z;
  name : string;
  ensAddress : option string
}.

(** A [Web3Provider] object: its identity and the constructor's arguments. *)
Record Web3Provider := {
  provider_ref : nat;
  provider_transport : Transport;
  provider_network : Network
}.

(** The module state: the [providers] cache, keyed by client identity, and
    the number of providers constructed so far, which names the next one. *)
Record Store := {
  providers : gmap positive Web3Provider;
  constructed : nat
}.

Definition WeakMap_has (m : gmap positive Web3Provider) (client : Client) : bool :=
  bool_decide (is_Some (m !! client_ref client)).

Definition WeakMap_get (m : gmap positive Web3Provider) (client : Client)
  : option Web3Provider :=
  m !! client_ref client.

Definition WeakMap_set (m : gmap positive Web3Provider) (client : Client)
    (provider : Web3Provider) : gmap positive Web3Provider :=
  <[client_ref client := provider]> m.

(** The constructor of [Web3Provider] is library code and may refuse its
    arguments: [Web3Provider_rejects t n] is the error it throws on a
    transport and a network, if it throws on them. *)
Variable Web3Provider_rejects : Transport → Network → option Error.

(** [new Web3Provider(transport, network)]: an error of the constructor,
    or a new object. *)
Definition new_Web3Provider (t : Transport) (n : Network) (st : Store)
  : Outcome Error Web3Provider * Store :=
  match Web3Provider_rejects t n with
  | Some e => (Thrown e, st)
  | None =>
      (Returned {| provider_ref := constructed st;
                   provider_transport := t;
                   provider_network := n |},
       {| providers := providers st; constructed := S (constructed st) |})
  end.

(** [chain.contracts?.ensRegistry?.address]: the first read is not
    guarded, so it throws on a missing chain. *)
Definition read_ensAddress (chain : option Chain)
  : Outcome Error (option string) :=
  match chain with
  | None => Thrown TypeError
  | Some ch =>
      Returned
        (match contracts ch with
         | None => None
         | Some cs =>
             match ensRegistry cs with
             | None => None
             | Some reg => Some (address reg)
             end
         end)
  end.

(** [chain ? {...} : chainId ? {...} : undefined]; a number is truthy
    unless it is zero ([NaN] aside). *)
Definition network_of (chain : option Chain) (chainId' : option Z)
    (ensAddress' : option string) : option Network :=
  match chain with
  | Some ch =>
      Some {| chainId := chain_id ch; name := chain_name ch;
              ensAddress := ensAddress' |}
  | None =>
      match chainId' with
      | Some z =>
          if negb (z =? 0)%Z
          then Some {| chainId := z; name := "Unsupported"; ensAddress := None |}
          else None
      | None => None
      end
  end.

Definition clientToProvider (client : option Client) (chainId' : option Z)
    (st : Store) : Outcome Error (option Web3Provider) * Store :=
  match client with
  | None => (Returned None, st)
  | Some client =>
      match read_ensAddress (chain client) with
      | Thrown e => (Thrown e, st)
      | Returned ensAddress' =>
          match network_of (chain client) chainId' ensAddress' with
          | None => (Returned None, st)
          | Some network =>
              if WeakMap_has (providers st) client
              then (Returned (WeakMap_get (providers st) client), st)
              else
                match new_Web3Provider (transport client) network st with
                | (Thrown e, st1) => (Thrown e, st1)
                | (Returned provider, st1) =>
                    (Returned (Some provider),
                     {| providers := WeakMap_set (providers st1) client provider;
                        constructed := constructed st1 |})
                end
          end
      end
  end.

(** A sequence of calls, each on the state the one before left. *)
Fixpoint run_calls (calls : list (option Client * option Z)) (st : Store)
  : Store :=
  match calls with
  | [] => st
  | (client, chainId') :: rest =>
      run_calls rest (clientToProvider client chainId' st).2
  end.

(** ** Properties *)

(** The network a provider gets for a chain. *)
Definition chain_network (ch : Chain) : Network :=
  {| chainId := chain_id ch; name := chain_name ch;
     ensAddress :=
       match contracts ch with
       | None => None
       | Some cs =>
           match ensRegistry cs with
           | None => None
           | Some reg => Some (address reg)
           end
       end |}.

(** A call on a cached client with a chain gives the cached provider and
    changes nothing. *)
Lemma clientToProvider_cached (c : Client) (ch : Chain) chainId' st q :
  chain c = Some ch →
  providers st !! client_ref c = Some q →
  clientToProvider (Some c) chainId' st = (Returned (Some q), st).
Proof.
  intros Hch Hq. unfold clientToProvider, WeakMap_has, WeakMap_get.
  rewrite Hch. cbn. rewrite Hq.
  by rewrite bool_decide_eq_true_2 by eauto.
Qed.

(** A call on a client with a chain that is not cached: the error of the
    constructor, or a new provider, which is then cached. *)
Lemma clientToProvider_miss (c : Client) (ch : Chain) chainId' st :
  chain c = Some ch →
  providers st !! client_ref c = None →
  match Web3Provider_rejects (transport c) (chain_network ch) with
  | Some e => clientToProvider (Some c) chainId' st = (Thrown e, st)
  | None =>
      ∃ p, (clientToProvider (Some c) chainId' st).1 = Returned (Some p)
           ∧ providers (clientToProvider (Some c) chainId' st).2
               !! client_ref c = Some p
  end.
Proof.
  intros Hch Hq.
  unfold clientToProvider, WeakMap_has, WeakMap_get, WeakMap_set,
    new_Web3Provider.
  rewrite Hch. cbn. rewrite Hq.
  rewrite bool_decide_eq_false_2 by (intros [? ?]; done).
  fold (chain_network ch).
  destruct (Web3Provider_rejects (transport c) (chain_network ch)); [done |].
  cbn. eexists. split; [done | apply lookup_insert_eq].
Qed.

(** A provider that a call returned is in the cache after the call, under
    the client, and the client has a chain. *)
Lemma clientToProvider_returned (c : Client) chainId' st p :
  (clientToProvider (Some c) chainId' st).1 = Returned (Some p) →
  is_Some (chain c)
  ∧ providers (clientToProvider (Some c) chainId' st).2 !! client_ref c
    = Some p.
Proof.
  intros Hr.
  destruct (chain c) as [ch |] eqn:Hch;
    [| unfold clientToProvider in Hr; rewrite Hch in Hr; done].
  split; [eauto |].
  destruct (providers st !! client_ref c) as [q |] eqn:Hq.
  - rewrite (clientToProvider_cached c ch chainId' st q Hch Hq) in Hr |- *.
    cbn in *. congruence.
  - pose proof (clientToProvider_miss c ch chainId' st Hch Hq) as Hmiss.
    destruct (Web3Provider_rejects (transport c) (chain_network ch)).
    + rewrite Hmiss in Hr. done.
    + destruct Hmiss as (p' & Hp' & Hin). congruence.
Qed.

(** No call removes or replaces an entry of the cache. *)
Lemma clientToProvider_keeps client chainId' st k p :
  providers st !! k = Some p →
  providers (clientToProvider client chainId' st).2 !! k = Some p.
Proof.
  intros Hk. unfold clientToProvider.
  destruct client as [c |]; [| done].
  destruct (read_ensAddress (chain c)); [| done].
  destruct (network_of _ _ _); [| done].
  unfold WeakMap_has. case_bool_decide as Hc; [done |].
  unfold new_Web3Provider. destruct (Web3Provider_rejects _ _); [done |]. cbn.
  unfold WeakMap_set. rewrite lookup_insert_ne; [done |].
  intros <-. apply Hc. rewrite Hk. eauto.
Qed.

Lemma run_calls_keeps calls : ∀ st k p,
  providers st !! k = Some p →
  providers (run_calls calls st) !! k = Some p.
Proof.
  induction calls as [| [client chainId'] calls IH]; intros st k p Hk; cbn.
  - done.
  - apply IH, clientToProvider_keeps, Hk.
Qed.

(** C2 (amended): the provider is remembered per client object.  Once a
    call on a client has returned a provider, and whatever calls come in
    between, a call on the same client returns that provider object,
    whatever the chain id given; it constructs nothing and leaves the
    cache as it is.  A first call that throws, as it does when the
    constructor of the provider throws, caches nothing. *)
Theorem clientToProvider_memoized (c : Client)
    (chainId1 chainId2 : option Z)
    (between : list (option Client * option Z)) (st : Store) :
  let first := clientToProvider (Some c) chainId1 st in
  let st' := run_calls between first.2 in
  let second := clientToProvider (Some c) chainId2 st' in
  (∀ p : Web3Provider,
     first.1 = Returned (Some p) →
     second.1 = Returned (Some p) ∧ second.2 = st')
  ∧ (∀ e, first.1 = Thrown e → first.2 = st).
Proof.
  intros first st' second. split.
  - intros p Hr.
    destruct (clientToProvider_returned c chainId1 st p Hr) as [[ch Hch] Hp].
    assert (Hst' : providers st' !! client_ref c = Some p)
      by apply run_calls_keeps, Hp.
    unfold second.
    by rewrite (clientToProvider_cached c ch chainId2 st' p Hch Hst').
  - intros e He. unfold first in *. unfold clientToProvider in *.
    destruct (read_ensAddress (chain c)); [| done].
    destruct (network_of _ _ _); [| done].
    destruct (WeakMap_has _ _); [done |].
    unfold new_Web3Provider in *.
    destruct (Web3Provider_rejects _ _); done.
Qed.

(** C8 (amended): the result is [undefined] exactly for an undefined
    client.  The branch that leaves the network undefined is never taken:
    where the chain is read without an exception, the network is defined.
    A client with a chain yields a provider, whatever the chain id, when
    it is in the cache or the constructor accepts its transport and the
    network of its chain; when the constructor throws, the call throws the
    same error and changes nothing. *)
Theorem clientToProvider_undefined_iff (client : option Client)
    (chainId' : option Z) (st : Store) :
  ((clientToProvider client chainId' st).1 = Returned None ↔ client = None)
  ∧ (∀ c ensAddress', client = Some c →
       read_ensAddress (chain c) = Returned ensAddress' →
       is_Some (network_of (chain c) chainId' ensAddress'))
  ∧ (∀ c ch, client = Some c → chain c = Some ch →
       (is_Some (providers st !! client_ref c)
        ∨ Web3Provider_rejects (transport c) (chain_network ch) = None →
        ∃ p, (clientToProvider client chainId' st).1 = Returned (Some p))
       ∧ (∀ e, providers st !! client_ref c = None →
            Web3Provider_rejects (transport c) (chain_network ch) = Some e →
            clientToProvider client chainId' st = (Thrown e, st))).
Proof.
  split_and!.
  - split; [| by intros ->].
    destruct client as [c |]; [| done]. intros Hr. exfalso.
    destruct (chain c) as [ch |] eqn:Hch;
      [| unfold clientToProvider in Hr; rewrite Hch in Hr; done].
    destruct (providers st !! client_ref c) as [q |] eqn:Hq.
    + rewrite (clientToProvider_cached c ch chainId' st q Hch Hq) in Hr. done.
    + pose proof (clientToProvider_miss c ch chainId' st Hch Hq) as Hmiss.
      destruct (Web3Provider_rejects (transport c) (chain_network ch)).
      * rewrite Hmiss in Hr. done.
      * destruct Hmiss as (p & Hp & _). rewrite Hp in Hr. done.
  - intros c e _ Hread. destruct (chain c); [by eexists | done].
  - intros c ch -> Hch. split.
    + intros Hok.
      destruct (providers st !! client_ref c) as [q |] eqn:Hq.
      * rewrite (clientToProvider_cached c ch chainId' st q Hch Hq). eauto.
      * destruct Hok as [[? ?] | Hacc]; [done |].
        pose proof (clientToProvider_miss c ch chainId' st Hch Hq) as Hmiss.
        rewrite Hacc in Hmiss. destruct Hmiss as (p & Hp & _). eauto.
    + intros e Hq Hrej.
      pose proof (clientToProvider_miss c ch chainId' st Hch Hq) as Hmiss.
      by rewrite Hrej in Hmiss.
Qed.

(** ** The two hooks *)

(** [useEthersProvider]: the values of [useAccount().chainId],
    [useConnectorClient({ chainId }).data] and [useClient({ chainId })] at
    a render are arguments.  [useMemo] only spares calls whose result the
    cache would give anyway. *)
Definition useEthersProvider (account_chainId chainId' : option Z)
    (client disconnectedClient : option Client) (st : Store)
  : Outcome Error (option Web3Provider) * Store :=
  clientToProvider
    (if bool_decide (account_chainId ≠ chainId') then disconnectedClient
     else match client with
          | Some c => Some c
          | None => disconnectedClient
          end)
    chainId' st.

Definition useEthersWeb3Provider (chainId' : option Z)
    (client : option Client) (st : Store)
  : Outcome Error (option Web3Provider) * Store :=
  clientToProvider client chainId' st.

(** The module state when the module is loaded. *)
Definition initial_store : Store := {| providers := ∅; constructed := 0 |}.

(** The clients a sequence of calls was made on. *)
Definition called_clients (calls : list (option Client * option Z))
  : list Client :=
  omap fst calls.

(** What the cache looks like: as many entries as providers constructed,
    and no provider object under two clients. *)
Definition store_wf (st : Store) : Prop :=
  size (providers st) = constructed st
  ∧ (∀ k p, providers st !! k = Some p → provider_ref p < constructed st)
  ∧ (∀ k1 k2 p1 p2,
       providers st !! k1 = Some p1 → providers st !! k2 = Some p2 →
       provider_ref p1 = provider_ref p2 → k1 = k2).

(** ** More on the adapter *)


(** What a call does to the module state: nothing, or one insertion on a
    cache miss. *)
Lemma clientToProvider_step (client : option Client) (chainId' : option Z)
    (st : Store) :
  let r := clientToProvider client chainId' st in
  (r.2 = st
   ∧ ∀ p, r.1 = Returned (Some p) →
          ∃ c, client = Some c ∧ providers st !! client_ref c = Some p)
  ∨ (∃ c ch p,
       client = Some c ∧ chain c = Some ch
       ∧ providers st !! client_ref c = None
       ∧ r.1 = Returned (Some p)
       ∧ provider_ref p = constructed st
       ∧ provider_transport p = transport c
       ∧ chainId (provider_network p) = chain_id ch
       ∧ name (provider_network p) = chain_name ch
       ∧ read_ensAddress (chain c) = Returned (ensAddress (provider_network p))
       ∧ r.2 = {| providers := <[client_ref c := p]> (providers st);
                  constructed := S (constructed st) |}).
Proof.
  unfold clientToProvider, WeakMap_has, WeakMap_get, WeakMap_set.
  destruct client as [c |]; [| left; split; [done | by intros p [=]]].
  destruct (chain c) as [ch |] eqn:Hch; cbn;
    [| left; split; [done | by intros p [=]]].
  destruct (providers st !! client_ref c) as [q |] eqn:Hq.
  - rewrite bool_decide_eq_true_2 by eauto. cbn. left. split; [done |].
    intros p [= <-]. eauto.
  - rewrite bool_decide_eq_false_2 by (intros [? ?]; done).
    unfold new_Web3Provider.
    destruct (Web3Provider_rejects _ _); cbn;
      [left; split; [done | by intros p [=]] |].
    right. eexists c, ch, _. rewrite Hch. split_and!; done.
Qed.

(** X7: a call changes the module state only when it is made on a client
    with a chain that is not in the cache yet; it then constructs one
    provider, from the transport and the chain of the client (not from the
    chain id given), and caches it under the client.  A call on a cached
    client, a call that throws and a call that returns [undefined] leave
    the state as it is. *)
Theorem clientToProvider_store (client : option Client) (chainId' : option Z)
    (st : Store) :
  let r := clientToProvider client chainId' st in
  (∀ c, client = Some c → is_Some (providers st !! client_ref c) → r.2 = st)
  ∧ (is_thrown r.1 = true → r.2 = st)
  ∧ (r.1 = Returned None → r.2 = st)
  ∧ (r.2 ≠ st →
     ∃ c ch p,
       client = Some c ∧ chain c = Some ch
       ∧ providers st !! client_ref c = None
       ∧ r.1 = Returned (Some p)
       ∧ provider_ref p = constructed st
       ∧ provider_transport p = transport c
       ∧ chainId (provider_network p) = chain_id ch
       ∧ name (provider_network p) = chain_name ch
       ∧ r.2 = {| providers := <[client_ref c := p]> (providers st);
                  constructed := S (constructed st) |}).
Proof.
  intros r. unfold r.
  destruct (clientToProvider_step client chainId' st)
    as [[Heq Hhit] | (c & ch & p & -> & Hch & Hmiss & Hr & Href & Htr & Hid
                      & Hname & _ & Heq)].
  - split_and!; try done.
  - rewrite Hr. split_and!.
    + intros c' [= <-] [q Hq]. congruence.
    + done.
    + done.
    + intros _. exists c, ch, p. split_and!; done.
Qed.

Lemma clientToProvider_wf client chainId' st :
  store_wf st → store_wf (clientToProvider client chainId' st).2.
Proof.
  intros (Hsize & Hlt & Hinj).
  destruct (clientToProvider_step client chainId' st)
    as [[-> _] | (c & ch & p & _ & _ & Hmiss & _ & Hp & _ & _ & _ & _ & ->)];
    [done |].
  split_and!; cbn.
  - rewrite map_size_insert_None by done. by rewrite Hsize.
  - intros k q. rewrite lookup_insert.
    case_decide; [intros [= <-]; lia |].
    intros Hk%Hlt. lia.
  - intros k1 k2 p1 p2. rewrite !lookup_insert.
    repeat case_decide; subst; intros H1 H2 Href; simplify_eq; try done.
    + apply Hlt in H2. lia.
    + apply Hlt in H1. lia.
    + by eapply Hinj.
Qed.

Lemma run_calls_wf calls : ∀ st, store_wf st → store_wf (run_calls calls st).
Proof.
  induction calls as [| [client chainId'] calls IH]; intros st Hst; cbn;
    [done |].
  apply IH, clientToProvider_wf, Hst.
Qed.

Lemma initial_store_wf : store_wf initial_store.
Proof.
  split_and!; cbn.
  - apply map_size_empty.
  - intros k p. by rewrite lookup_empty.
  - intros k1 k2 p1 p2. by rewrite lookup_empty.
Qed.

(** X8: whatever calls were made since the module was loaded, one provider
    was constructed for each client in the cache and none besides, and two
    different clients never share a provider object. *)
Theorem providers_one_per_client (calls : list (option Client * option Z)) :
  let st := run_calls calls initial_store in
  size (providers st) = constructed st
  ∧ ∀ k1 k2 p1 p2,
      providers st !! k1 = Some p1 → providers st !! k2 = Some p2 →
      k1 ≠ k2 → provider_ref p1 ≠ provider_ref p2.
Proof.
  destruct (run_calls_wf calls initial_store initial_store_wf)
    as (Hsize & _ & Hinj).
  split; [done |]. intros k1 k2 p1 p2 H1 H2 Hne Href.
  apply Hne. by eapply Hinj.
Qed.

(** Where a cached provider comes from. *)
Definition built_from (clients : list Client) (k : positive)
    (p : Web3Provider) : Prop :=
  ∃ c ch,
    c ∈ clients ∧ client_ref c = k ∧ chain c = Some ch
    ∧ provider_transport p = transport c
    ∧ chainId (provider_network p) = chain_id ch
    ∧ name (provider_network p) = chain_name ch
    ∧ read_ensAddress (chain c) = Returned (ensAddress (provider_network p)).

Lemma run_calls_built_from calls : ∀ st clients,
  (∀ k p, providers st !! k = Some p → built_from clients k p) →
  ∀ k p, providers (run_calls calls st) !! k = Some p →
         built_from (clients ++ called_clients calls) k p.
Proof.
  induction calls as [| [client chainId'] calls IH]; intros st clients Hst k p.
  - cbn. rewrite app_nil_r. apply Hst.
  - cbn -[called_clients].
    assert (Hcalled : called_clients ((client, chainId') :: calls)
                      = from_option (λ c, [c]) [] client ++ called_clients calls)
      by by destruct client.
    rewrite Hcalled, app_assoc. apply IH. clear k p. intros k p Hk.
    assert (Hmono : ∀ q, built_from clients k q →
              built_from (clients ++ from_option (λ c, [c]) [] client) k q).
    { intros q (c & ch & Hc & Hrest). exists c, ch.
      split; [apply elem_of_app; by left | done]. }
    destruct (clientToProvider_step client chainId' st)
      as [[Heq _] | (c & ch & q & -> & Hch & _ & _ & _ & Htr & Hid & Hname
                     & Hens & Heq)];
      rewrite Heq in Hk.
    + apply Hmono, Hst, Hk.
    + cbn in Hk. rewrite lookup_insert in Hk. case_decide as Hkc.
      * injection Hk as <-. exists c, ch.
        split_and!; try done. apply elem_of_app. right. cbn. by left.
      * apply Hmono, Hst, Hk.
Qed.

(** X9: every provider in the cache was built, for a client of one of the
    calls made, from the transport and the chain of that client: its
    network has the id and the name of the chain and the address of the
    ENS registry of the chain, if the chain has one.  No provider is built
    from the chain id argument. *)
Theorem providers_built_from_chain (calls : list (option Client * option Z))
    (k : positive) (p : Web3Provider) :
  providers (run_calls calls initial_store) !! k = Some p →
  built_from (called_clients calls) k p.
Proof.
  intros Hk.
  apply (run_calls_built_from calls initial_store [] ); [| done].
  intros k' p'. cbn. by rewrite lookup_empty.
Qed.

(** X10: the two hooks share the cache.  On an account that is on the
    requested chain, once [useEthersWeb3Provider] has returned a provider
    for a connector client, [useEthersProvider] returns that provider
    object for the same client, whatever calls came in between. *)
Theorem hooks_share_provider (c : Client)
    (chainId' : option Z) (disconnectedClient : option Client)
    (between : list (option Client * option Z)) (st : Store)
    (p : Web3Provider) :
  (useEthersWeb3Provider chainId' (Some c) st).1 = Returned (Some p) →
  let first := useEthersWeb3Provider chainId' (Some c) st in
  let second :=
    useEthersProvider chainId' chainId' (Some c) disconnectedClient
      (run_calls between first.2) in
  second.1 = Returned (Some p).
Proof.
  intros Hr first second. unfold second, first, useEthersWeb3Provider,
    useEthersProvider in *.
  rewrite bool_decide_eq_false_2 by (intros Hne; by apply Hne).
  lazy beta iota.
  destruct (clientToProvider_returned c chainId' st p Hr) as [[ch Hch] Hp].
  pose proof (run_calls_keeps between _ _ _ Hp) as Hst'.
  by rewrite (clientToProvider_cached c ch chainId' _ p Hch Hst').
Qed.


End Adapter.

(** ** The adapter on sample clients *)

(** A constructor that checks the network as ethers does: a network that
    has the name of a standard network must have its chain id (or 0). *)
Definition standard_chainId (name : string) : option Z :=
  if String.eqb name "homestead" then Some 1%Z
  else if String.eqb name "goerli" then Some 5%Z
  else if String.eqb name "sepolia" then Some 11155111%Z
  else None.

Definition ethers_rejects (t : unit) (n : Network) : option Error :=
  match standard_chainId (name n) with
  | Some standard =>
      if negb (chainId n =? 0)%Z && negb (chainId n =? standard)%Z
      then Some (ConstructorError "network chainId mismatch")
      else None
  | None => None
  end.

Definition mainnet : Chain :=
  {| chain_id := 1; chain_name := "Ethereum";
     contracts := Some {| ensRegistry := Some {| address := "0x00000000000C2E074eC69A0dFb2997BA6C7d2e1e" |} |} |}.

Definition mainnet_client : Client (Transport := unit) :=
  {| client_ref := 7; chain := Some mainnet; transport := () |}.

Definition other_client : Client (Transport := unit) :=
  {| client_ref := 8; chain := Some mainnet; transport := () |}.

(** A chain that carries the name of a standard network and the id of
    another. *)
Definition mismatched_chain : Chain :=
  {| chain_id := 5; chain_name := "homestead"; contracts := None |}.

Definition mismatched_client : Client (Transport := unit) :=
  {| client_ref := 9; chain := Some mismatched_chain; transport := () |}.

Definition empty_store : Store (Transport := unit) :=
  {| providers := ∅; constructed := 0 |}.

(** The constructor throws on the mismatched chain: both calls throw, and
    no provider is returned twice. *)
Lemma clientToProvider_memoized_counterexample :
  is_Some (chain mismatched_client)
  ∧ clientToProvider ethers_rejects (Some mismatched_client) (Some 5%Z)
      empty_store
    = (Thrown (ConstructorError "network chainId mismatch"), empty_store)
  ∧ ¬ ∃ p : Web3Provider,
        (clientToProvider ethers_rejects (Some mismatched_client) (Some 5%Z)
           empty_store).1 = Returned (Some p)
        ∧ (clientToProvider ethers_rejects (Some mismatched_client) (Some 5%Z)
             (clientToProvider ethers_rejects (Some mismatched_client)
                (Some 5%Z) empty_store).2).1 = Returned (Some p).
Proof.
  split; [by eexists |]. split; [reflexivity |].
  intros (p & Hfirst & _). discriminate Hfirst.
Qed.

Lemma clientToProvider_memoized_witness :
  ∃ p : Web3Provider,
    (clientToProvider ethers_rejects (Some mainnet_client) (Some 1%Z)
       empty_store).1
    = Returned (Some p)
    ∧ (clientToProvider ethers_rejects (Some mainnet_client) (Some 10%Z)
         (run_calls ethers_rejects
            [(Some other_client, None); (None, Some 1%Z)]
            (clientToProvider ethers_rejects (Some mainnet_client) (Some 1%Z)
               empty_store).2)).1
      = Returned (Some p)
    ∧ (clientToProvider ethers_rejects (Some mainnet_client) (Some 10%Z)
         (run_calls ethers_rejects
            [(Some other_client, None); (None, Some 1%Z)]
            (clientToProvider ethers_rejects (Some mainnet_client) (Some 1%Z)
               empty_store).2)).2
      = run_calls ethers_rejects
          [(Some other_client, None); (None, Some 1%Z)]
          (clientToProvider ethers_rejects (Some mainnet_client) (Some 1%Z)
             empty_store).2.
Proof.
  eexists. split; [reflexivity |].
  exact (proj1 (clientToProvider_memoized ethers_rejects mainnet_client
                  (Some 1%Z) (Some 10%Z)
                  [(Some other_client, None); (None, Some 1%Z)] empty_store)
           _ eq_refl).
Defined.

(** A client with a chain for which no provider is returned. *)
Lemma clientToProvider_undefined_iff_counterexample :
  is_Some (chain mismatched_client)
  ∧ ¬ ∃ p : Web3Provider,
        (clientToProvider ethers_rejects (Some mismatched_client) None
           empty_store).1 = Returned (Some p).
Proof.
  split; [by eexists |]. intros (p & Hp). discriminate Hp.
Qed.

Lemma clientToProvider_undefined_iff_witness :
  (∃ p, (clientToProvider ethers_rejects (Some mainnet_client) None
           empty_store).1 = Returned (Some p))
  ∧ clientToProvider ethers_rejects (Some mismatched_client) None empty_store
    = (Thrown (ConstructorError "network chainId mismatch"), empty_store).
Proof.
  split.
  - apply (proj1 (proj2 (proj2 (clientToProvider_undefined_iff ethers_rejects
                                  (Some mainnet_client) None empty_store))
                    mainnet_client mainnet eq_refl eq_refl)).
    right. reflexivity.
  - apply (proj2 (proj2 (proj2 (clientToProvider_undefined_iff ethers_rejects
                                  (Some mismatched_client) None empty_store))
                    mismatched_client mismatched_chain eq_refl eq_refl));
      reflexivity.
Defined.

Lemma providers_built_from_chain_witness :
  providers (run_calls ethers_rejects [(Some mainnet_client, Some 10%Z)]
               initial_store)
    !! 7%positive
  = Some {| provider_ref := 0; provider_transport := ();
            provider_network :=
              {| chainId := 1; name := "Ethereum";
                 ensAddress := Some "0x00000000000C2E074eC69A0dFb2997BA6C7d2e1e" |} |}
  ∧ built_from (called_clients [(Some mainnet_client, Some 10%Z)]) 7%positive
      {| provider_ref := 0; provider_transport := ();
         provider_network :=
           {| chainId := 1; name := "Ethereum";
              ensAddress := Some "0x00000000000C2E074eC69A0dFb2997BA6C7d2e1e" |} |}.
Proof.
  split; [reflexivity |].
  apply (providers_built_from_chain ethers_rejects
           [(Some mainnet_client, Some 10%Z)]).
  reflexivity.
Defined.

Lemma hooks_share_provider_witness :
  ∃ p,
    (useEthersWeb3Provider ethers_rejects (Some 1%Z) (Some mainnet_client)
       empty_store).1
    = Returned (Some p)
    ∧ (useEthersProvider ethers_rejects (Some 1%Z) (Some 1%Z)
         (Some mainnet_client) (Some other_client)
         (run_calls ethers_rejects [(Some other_client, None)]
            (useEthersWeb3Provider ethers_rejects (Some 1%Z)
               (Some mainnet_client) empty_store).2)).1
      = Returned (Some p).
Proof.
  eexists. split; [reflexivity |].
  exact (hooks_share_provider ethers_rejects mainnet_client (Some 1%Z)
           (Some other_client) [(Some other_client, None)] empty_store _
           eq_refl).
Defined.

Lemma clientToProvider_store_witness :
  (clientToProvider ethers_rejects (Some mainnet_client) (Some 10%Z)
     empty_store).2
    ≠ empty_store
  ∧ ∃ c ch p,
      Some mainnet_client = Some c ∧ chain c = Some ch
      ∧ providers empty_store !! client_ref c = None
      ∧ (clientToProvider ethers_rejects (Some mainnet_client) (Some 10%Z)
           empty_store).1
        = Returned (Some p)
      ∧ provider_ref p = 0
      ∧ provider_transport p = transport c
      ∧ chainId (provider_network p) = chain_id ch
      ∧ name (provider_network p) = chain_name ch
      ∧ (clientToProvider ethers_rejects (Some mainnet_client) (Some 10%Z)
           empty_store).2
        = {| providers := <[client_ref c := p]> (providers empty_store);
             constructed := 1 |}.
Proof.
  assert (Hne : (clientToProvider ethers_rejects (Some mainnet_client)
                   (Some 10%Z) empty_store).2 ≠ empty_store)
    by (intros H; apply (f_equal constructed) in H; discriminate H).
  split; [exact Hne |].
  exact (proj2 (proj2 (proj2 (clientToProvider_store ethers_rejects
                                (Some mainnet_client) (Some 10%Z)
                                empty_store))) Hne).
Defined.

Lemma providers_one_per_client_witness :
  ∃ p1 p2,
    providers (run_calls ethers_rejects
                 [(Some mainnet_client, None); (Some other_client, None)]
                 empty_store) !! 7%positive = Some p1
    ∧ providers (run_calls ethers_rejects
                   [(Some mainnet_client, None); (Some other_client, None)]
                   empty_store) !! 8%positive = Some p2
    ∧ provider_ref p1 ≠ provider_ref p2.
Proof.
  eexists _, _. split; [reflexivity |]. split; [reflexivity |].
  apply (proj2 (providers_one_per_client ethers_rejects
                  [(Some mainnet_client, None); (Some other_client, None)])
           7%positive 8%positive); [reflexivity | reflexivity | discriminate].
Defined.

End EthersAdapter.

(** * useSwapCallback.tsx *)
Module SwapCallback.

(** ** Enumerations *)

Inductive TradeType := EXACT_INPUT | EXACT_OUTPUT.

(** [TradeFillType]: the three members this file names, and any other
    member the enumeration has. *)
Inductive TradeFillType := Classic | UniswapX | UniswapXv2 | OtherFillType.

(** [OffchainOrderType], likewise. *)
Inductive OffchainOrderType := DUTCH_AUCTION | OtherOffchainOrderType.

Global Instance TradeType_eq_dec : EqDecision TradeType.
Proof. solve_decision. Defined.
Global Instance TradeFillType_eq_dec : EqDecision TradeFillType.
Proof. solve_decision. Defined.

(** The errors of this file, by the place that throws them; the message of
    each is a fixed text.  [TypeError] is a property read on [undefined],
    [Rejected] an error that comes out of an awaited call or of a call
    into a library. *)
Inductive Error :=
  | MissingTrade
  | WalletNotConnected
  | MissingSwapChainId
  | NonEVMChain
  | WrongChain
  | TypeError
  | Rejected (reason : string).

(** Truthiness of an optional string and of an optional number. *)
Definition truthy_string (s : option string) : bool :=
  match s with
  | Some s => negb (String.eqb s "")
  | None => false
  end.

Definition truthy_number (n : option Z) : bool :=
  match n with
  | Some z => negb (z =? 0)%Z
  | None => false
  end.

Section Hook.

(** Values of other libraries that are only handed on. *)
Context {Percent Currency PermitSignature FiatValues : Type}.

(** ** Trades *)

Record CurrencyAmount := {
  currency : Currency;
  quotient : Z
}.

Record SwapFee := {
  recipient : string;
  percent : Percent;
  amount : string
}.

(** The fields of an [InterfaceTrade] that are read here; [fillType] is the
    variant tag. *)
Record InterfaceTrade := {
  fillType : TradeFillType;
  tradeType : TradeType;
  inputAmount : CurrencyAmount;
  outputAmount : CurrencyAmount;
  swapFee : option SwapFee;
  offchainOrderType : OffchainOrderType
}.

(** Imported functions.  The two type guards tell the variant of a trade.
    The conversions and the methods of a trade are library code: each
    gives a value or throws. *)
Variable isClassicTrade : option InterfaceTrade → bool.
Variable isUniswapXTrade : option InterfaceTrade → bool.
Variable BigNumber_from : string → Outcome Error Z.
Variable BigNumber_toNumber : Z → Outcome Error Z.
Variable currencyId : Currency → Outcome Error string.
Variable minimumAmountOut :
  InterfaceTrade → Percent → Outcome Error CurrencyAmount.
Variable maximumAmountIn :
  InterfaceTrade → Percent → Outcome Error CurrencyAmount.
Variable isEVMChain : Z → bool.
Variable useSupportedChainId : option Z → option Z.

(** ** Fee fields of the universal router *)

Record FeeOptions := { fee : Percent; fee_recipient : string }.
Record FlatFeeOptions := { flat_amount : Z; flat_recipient : string }.

Inductive UniversalRouterFeeField :=
  | feeOptions (o : FeeOptions)
  | flatFeeOptions (o : FlatFeeOptions).

Definition getUniversalRouterFeeFields (trade : option InterfaceTrade)
  : Outcome Error (option UniversalRouterFeeField) :=
  if negb (isClassicTrade trade) then Returned None
  else
    match trade with
    | None => Thrown TypeError
    | Some trade =>
        match swapFee trade with
        | None => Returned None
        | Some swapFee =>
            if decide (tradeType trade = EXACT_INPUT)
            then Returned (Some (feeOptions
                   {| fee := percent swapFee;
                      fee_recipient := recipient swapFee |}))
            else
              and_then (BigNumber_from (amount swapFee)) (λ amount',
                Returned (Some (flatFeeOptions
                  {| flat_amount := amount';
                     flat_recipient := recipient swapFee |})))
        end
    end.

(** ** The two swap strategies *)

(** The argument of [useUniswapXSwapCallback]. *)
Record UniswapXSwapArgs := {
  ux_trade : option InterfaceTrade;
  ux_allowedSlippage : Percent;
  ux_fiatValues : FiatValues
}.

(** [options] of [useUniversalRouterSwapCallback]; the spread of the fee
    fields adds one field or none. *)
Record UniversalRouterOptions := {
  slippageTolerance : Percent;
  permit : option PermitSignature;
  feeField : option UniversalRouterFeeField
}.

Record UniversalRouterSwapArgs := {
  ur_trade : option InterfaceTrade;
  ur_fiatValues : FiatValues;
  ur_options : UniversalRouterOptions
}.

(** The callback a strategy hook returns, known by the hook that made it
    and the argument the hook was given. *)
Inductive SwapStrategy :=
  | useUniswapXSwapCallback (args : UniswapXSwapArgs)
  | useUniversalRouterSwapCallback (args : UniversalRouterSwapArgs).

Definition is_uniswapX_strategy (s : SwapStrategy) : bool :=
  match s with
  | useUniswapXSwapCallback _ => true
  | useUniversalRouterSwapCallback _ => false
  end.

(** ** Swap results *)

(** [result.response]: a transaction response (with its [hash]) from the
    router, or the order data from the auction.  A field the object does
    not have reads as [undefined]. *)
Record SwapResponse := {
  hash : option string;
  orderHash : option string;
  response_deadline : option Z;
  encodedOrder : option string
}.

Record SwapResult := {
  type : TradeFillType;
  response : SwapResponse;
  deadline : option Z
}.

(** What awaiting a strategy callback, and what awaiting [selectChain],
    ends in. *)
Variable await_swap : SwapStrategy → Outcome Error SwapResult.
Variable selectChain : Z → Outcome Error bool.

(** ** What is recorded *)

(** The amounts of a swap, by trade type. *)
Inductive SwapAmounts :=
  | ExactInputAmounts
      (inputCurrencyAmountRaw expectedOutputCurrencyAmountRaw
       minimumOutputCurrencyAmountRaw : string)
  | ExactOutputAmounts
      (maximumInputCurrencyAmountRaw outputCurrencyAmountRaw
       expectedInputCurrencyAmountRaw : string).

(** [TransactionInfo] of type [TransactionType.Swap]. *)
Record TransactionInfo := {
  inputCurrencyId : string;
  outputCurrencyId : string;
  isUniswapXOrder : bool;
  amounts : SwapAmounts
}.

(** The argument of [addOrder]. *)
Record UniswapXOrderDetails := {
  offerer : option string;
  order_orderHash : option string;
  order_chainId : option Z;
  expiry : option Z;
  swapInfo : TransactionInfo;
  order_encodedOrder : option string;
  order_offchainOrderType : OffchainOrderType
}.

(** The arguments of [addTransaction]. *)
Record AddedTransaction := {
  added_response : SwapResponse;
  added_info : TransactionInfo;
  added_deadline : option Z
}.

(** The application as the callback sees it: the orders and transactions
    recorded so far (the arguments of the [addOrder] and [addTransaction]
    calls, oldest first), the strategy callbacks invoked and the chains
    asked for. *)
Record World := {
  orders : list UniswapXOrderDetails;
  transactions : list AddedTransaction;
  invoked : list SwapStrategy;
  chain_requests : list Z
}.

(** ** Computations on the world that may throw *)

Definition M (A : Type) : Type := World → Outcome Error A * World.

Definition ret {A} (a : A) : M A := λ w, (Returned a, w).

Definition throw {A} (e : Error) : M A := λ w, (Thrown e, w).

Definition bind {A B} (m : M A) (k : A → M B) : M B :=
  λ w, match m w with
       | (Returned a, w') => k a w'
       | (Thrown e, w') => (Thrown e, w')
       end.

Notation "x <- m ;; k" := (bind m (λ x, k))
  (at level 100, m at next level, right associativity).
Notation "m ;; k" := (bind m (λ _, k))
  (at level 100, right associativity).

Definition addOrder (o : UniswapXOrderDetails) : M unit :=
  λ w, (Returned (),
        {| orders := orders w ++ [o]; transactions := transactions w;
           invoked := invoked w; chain_requests := chain_requests w |}).

Definition addTransaction (r : SwapResponse) (info : TransactionInfo)
    (dl : option Z) : M unit :=
  λ w, (Returned (),
        {| orders := orders w;
           transactions := transactions w
             ++ [{| added_response := r; added_info := info;
                    added_deadline := dl |}];
           invoked := invoked w; chain_requests := chain_requests w |}).

(** [await swapCallback()] *)
Definition call_swap (s : SwapStrategy) : M SwapResult :=
  λ w, (await_swap s,
        {| orders := orders w; transactions := transactions w;
           invoked := invoked w ++ [s];
           chain_requests := chain_requests w |}).

(** [await selectChain(chain)] *)
Definition call_selectChain (chain : Z) : M bool :=
  λ w, (selectChain chain,
        {| orders := orders w; transactions := transactions w;
           invoked := invoked w;
           chain_requests := chain_requests w ++ [chain] |}).

(** ** The hook *)

Record Account := {
  isConnected : bool;
  address : option string;
  account_chainId : option Z
}.

(** The checks at the head of the callback. *)
Definition validation (trade : option InterfaceTrade) (account : Account)
    (swapChainId supportedConnectedChainId : option Z) : M unit :=
  match trade with
  | None => throw MissingTrade
  | Some _ =>
      if negb (isConnected account) || negb (truthy_string (address account))
      then throw WalletNotConnected
      else
        match swapChainId with
        | None => throw MissingSwapChainId
        | Some chain =>
            if negb (truthy_number swapChainId) then throw MissingSwapChainId
            else if negb (isEVMChain chain) then throw NonEVMChain
            else if negb (truthy_number supportedConnectedChainId)
                    || negb (bool_decide (supportedConnectedChainId = swapChainId))
            then
              correctChain <- call_selectChain chain ;;
              if negb correctChain then throw WrongChain else ret ()
            else ret ()
        end
  end.

(** A value or an error of a library call, as a step of the callback. *)
Definition lift {A} (o : Outcome Error A) : M A := λ w, (o, w).

(** The swap info; the fields are computed in the order they are written. *)
Definition swapInfo_of (trade : InterfaceTrade) (allowedSlippage : Percent)
    (result : SwapResult) : Outcome Error TransactionInfo :=
  and_then (currencyId (currency (inputAmount trade))) (λ inputCurrencyId',
  and_then (currencyId (currency (outputAmount trade))) (λ outputCurrencyId',
  and_then
    (if decide (tradeType trade = EXACT_INPUT)
     then
       and_then (minimumAmountOut trade allowedSlippage) (λ minimumOut,
         Returned (ExactInputAmounts
           (pretty (quotient (inputAmount trade)))
           (pretty (quotient (outputAmount trade)))
           (pretty (quotient minimumOut))))
     else
       and_then (maximumAmountIn trade allowedSlippage) (λ maximumIn,
         Returned (ExactOutputAmounts
           (pretty (quotient maximumIn))
           (pretty (quotient (outputAmount trade)))
           (pretty (quotient (inputAmount trade))))))
    (λ amounts',
  Returned
    {| inputCurrencyId := inputCurrencyId';
       outputCurrencyId := outputCurrencyId';
       isUniswapXOrder :=
         bool_decide (type result = UniswapX)
         || bool_decide (type result = UniswapXv2);
       amounts := amounts' |}))).

(** [result.deadline?.toNumber()] *)
Definition deadline_number (result : SwapResult)
  : Outcome Error (option Z) :=
  match deadline result with
  | None => Returned None
  | Some d => and_then (BigNumber_toNumber d) (λ n, Returned (Some n))
  end.

(** The [switch] on the fill type of the result. *)
Definition record_swap (trade : InterfaceTrade) (account : Account)
    (supportedConnectedChainId : option Z) (info : TransactionInfo)
    (result : SwapResult) : M unit :=
  match type result with
  | UniswapX | UniswapXv2 =>
      addOrder
        {| offerer := address account;
           order_orderHash := orderHash (response result);
           order_chainId := supportedConnectedChainId;
           expiry := response_deadline (response result);
           swapInfo := info;
           order_encodedOrder := encodedOrder (response result);
           order_offchainOrderType :=
             if isUniswapXTrade (Some trade) then offchainOrderType trade
             else DUTCH_AUCTION |}
  | _ =>
      deadline' <- lift (deadline_number result) ;;
      addTransaction (response result) info deadline'
  end.

(** The callback, over the values its closure holds. *)
Definition callback (trade : option InterfaceTrade) (account : Account)
    (swapChainId supportedConnectedChainId : option Z)
    (allowedSlippage : Percent) (swapCallback : SwapStrategy)
  : M SwapResult :=
  validation trade account swapChainId supportedConnectedChainId ;;
  result <- call_swap swapCallback ;;
  match trade with
  | None => throw TypeError
  | Some trade =>
      info <- lift (swapInfo_of trade allowedSlippage result) ;;
      record_swap trade account supportedConnectedChainId info result ;;
      ret result
  end.

Record Props := {
  trade : option InterfaceTrade;
  fiatValues : FiatValues;
  allowedSlippage : Percent;
  permitSignature : option PermitSignature
}.

(** What [useAccount] and [useMultichainContext] give at this render. *)
Record HookValues := {
  account : Account;
  swapChainId : option Z
}.

Definition uniswapXSwapCallback (p : Props) : SwapStrategy :=
  useUniswapXSwapCallback
    {| ux_trade := if isUniswapXTrade (trade p) then trade p else None;
       ux_allowedSlippage := allowedSlippage p;
       ux_fiatValues := fiatValues p |}.

Definition universalRouterSwapCallback (p : Props)
    (feeFields : option UniversalRouterFeeField) : SwapStrategy :=
  useUniversalRouterSwapCallback
    {| ur_trade := if isClassicTrade (trade p) then trade p else None;
       ur_fiatValues := fiatValues p;
       ur_options :=
         {| slippageTolerance := allowedSlippage p;
            permit := permitSignature p;
            feeField := feeFields |} |}.

Definition swapCallback (p : Props)
    (feeFields : option UniversalRouterFeeField) : SwapStrategy :=
  if isUniswapXTrade (trade p) then uniswapXSwapCallback p
  else universalRouterSwapCallback p feeFields.

Definition useSwapCallback (h : HookValues) (p : Props)
  : Outcome Error (M SwapResult) :=
  let supportedConnectedChainId :=
    useSupportedChainId (account_chainId (account h)) in
  match getUniversalRouterFeeFields (trade p) with
  | Thrown e => Thrown e
  | Returned feeFields =>
      Returned
        (callback (trade p) (account h) (swapChainId h)
           supportedConnectedChainId (allowedSlippage p)
           (swapCallback p feeFields))
  end.

(** The inputs the callback refuses: no trade; an account that is not
    connected or has no address; no swap chain; a swap chain that is not an
    EVM chain; a connected chain other than the swap chain when the switch
    to the swap chain does not succeed. *)
Definition invalid_input (trade : option InterfaceTrade) (account : Account)
    (swapChainId supportedConnectedChainId : option Z) : Prop :=
  trade = None
  ∨ isConnected account = false
  ∨ truthy_string (address account) = false
  ∨ truthy_number swapChainId = false
  ∨ (∃ chain, swapChainId = Some chain ∧ isEVMChain chain = false)
  ∨ (supportedConnectedChainId ≠ swapChainId
     ∧ ∃ chain, swapChainId = Some chain ∧ selectChain chain ≠ Returned true).

(** ** Properties of the fee fields *)

(** C9 (amended): the fee fields are [undefined] exactly for a trade that
    is not classic or has no swap fee.  A classic trade with a swap fee
    gets the percent-based [feeOptions] when it is an exact-input trade;
    otherwise it gets the flat [flatFeeOptions] when [BigNumber.from]
    accepts the amount of the fee, and the call throws the error of
    [BigNumber.from] when it does not.  Both carry the recipient of the
    fee. *)
Theorem getUniversalRouterFeeFields_spec (trade : option InterfaceTrade) :
  (getUniversalRouterFeeFields trade = Returned None
   ↔ isClassicTrade trade = false ∨ ∃ t, trade = Some t ∧ swapFee t = None)
  ∧ (∀ t f, trade = Some t → isClassicTrade trade = true →
       swapFee t = Some f →
       (tradeType t = EXACT_INPUT →
          getUniversalRouterFeeFields trade
          = Returned (Some (feeOptions
              {| fee := percent f; fee_recipient := recipient f |})))
       ∧ (tradeType t ≠ EXACT_INPUT →
          (∀ amount', BigNumber_from (amount f) = Returned amount' →
             getUniversalRouterFeeFields trade
             = Returned (Some (flatFeeOptions
                 {| flat_amount := amount';
                    flat_recipient := recipient f |})))
          ∧ (∀ e, BigNumber_from (amount f) = Thrown e →
               getUniversalRouterFeeFields trade = Thrown e))).
Proof.
  unfold getUniversalRouterFeeFields. split.
  - destruct (isClassicTrade trade) eqn:Hc; cbn.
    + destruct trade as [t |].
      * destruct (swapFee t) as [f |] eqn:Hf.
        -- split.
           ++ case_decide; [done |].
              by destruct (BigNumber_from (amount f)).
           ++ intros [? | (t' & [= <-] & Hf')]; congruence.
        -- split; [| done]. intros _. right. eauto.
      * split; [done |]. intros [? | (t & ? & _)]; done.
    + split; [by left | done].
  - intros t f -> Hc Hf. rewrite Hc, Hf. cbn.
    split; intros Ht; case_decide; try done.
    split; [intros a -> | intros e ->]; done.
Qed.

(** ** Properties of the callback *)

Lemma useSwapCallback_inv h p cb :
  useSwapCallback h p = Returned cb →
  ∃ feeFields,
    getUniversalRouterFeeFields (trade p) = Returned feeFields
    ∧ cb = callback (trade p) (account h) (swapChainId h)
             (useSupportedChainId (account_chainId (account h)))
             (allowedSlippage p) (swapCallback p feeFields).
Proof.
  unfold useSwapCallback.
  destruct (getUniversalRouterFeeFields (trade p)) as [feeFields | e];
    [| done].
  intros [= <-]. eauto.
Qed.

(** The validation changes nothing but the list of chain requests. *)
Lemma validation_frame tr acc sc supp w :
  orders (validation tr acc sc supp w).2 = orders w
  ∧ transactions (validation tr acc sc supp w).2 = transactions w
  ∧ invoked (validation tr acc sc supp w).2 = invoked w.
Proof.
  unfold validation, bind, call_selectChain, throw, ret.
  destruct tr; [| done].
  destruct (negb (isConnected acc) || negb (truthy_string (address acc)));
    [done |].
  destruct sc as [c |]; [| done].
  destruct (negb (truthy_number (Some c))); [done |].
  destruct (negb (isEVMChain c)); [done |].
  destruct (negb (truthy_number supp) || negb (bool_decide (supp = Some c)));
    [| done].
  cbn. destruct (selectChain c) as [[|] | e]; done.
Qed.

(** The validation throws exactly on the refused inputs. *)
Lemma validation_thrown_iff tr acc sc supp w :
  is_thrown (validation tr acc sc supp w).1 = true
  ↔ invalid_input tr acc sc supp.
Proof.
  unfold validation, invalid_input, bind, call_selectChain, throw, ret.
  destruct tr as [t |]; [| cbn; split; [by left | done]].
  destruct (isConnected acc) eqn:Hconn; cbn;
    [| split; [by right; left | done]].
  destruct (truthy_string (address acc)) eqn:Haddr; cbn;
    [| split; [by right; right; left | done]].
  destruct sc as [c |]; [| cbn; split; [by right; right; right; left | done]].
  destruct (truthy_number (Some c)) eqn:Hsc; cbn;
    [| split; [by right; right; right; left | done]].
  destruct (isEVMChain c) eqn:Hevm; cbn;
    [| split; [intros _; do 4 right; left; eauto | done]].
  assert (Hdiff : negb (truthy_number supp) || negb (bool_decide (supp = Some c))
                  = negb (bool_decide (supp = Some c))).
  { destruct (truthy_number supp) eqn:Hs; [done |]. cbn.
    rewrite bool_decide_eq_false_2; [done |]. intros ->. congruence. }
  rewrite Hdiff. clear Hdiff.
  case_bool_decide as Hsupp; cbn.
  - split; [done |].
    intros [? | [? | [? | [? | [(c' & [= <-] & ?) | [? _]]]]]]; congruence.
  - destruct (selectChain c) as [[|] | e] eqn:Hsel; cbn.
    + split; [done |].
      intros [? | [? | [? | [? | [(c' & [= <-] & ?) | [_ (c' & [= <-] & ?)]]]]]];
        congruence.
    + split; [| done]. intros _. do 5 right. split; [done |].
      exists c. split; [done |]. congruence.
    + split; [| done]. intros _. do 5 right. split; [done |].
      exists c. split; [done |]. congruence.
Qed.

Lemma validation_returned tr acc sc supp w :
  ¬ invalid_input tr acc sc supp →
  (validation tr acc sc supp w).1 = Returned () ∧ is_Some tr.
Proof.
  intros Hok. rewrite <- (validation_thrown_iff tr acc sc supp w) in Hok.
  split.
  - destruct (validation tr acc sc supp w).1 as [[] | e]; [done |].
    by destruct Hok.
  - destruct tr; [eauto |]. by destruct Hok.
Qed.

(** The world after the strategy callback was invoked. *)
Definition invoke_in (s : SwapStrategy) (w : World) : World :=
  {| orders := orders w; transactions := transactions w;
     invoked := invoked w ++ [s]; chain_requests := chain_requests w |}.

(** The world after an order, and after a transaction, was recorded. *)
Definition order_in (o : UniswapXOrderDetails) (w : World) : World :=
  {| orders := orders w ++ [o]; transactions := transactions w;
     invoked := invoked w; chain_requests := chain_requests w |}.

Definition transaction_in (t : AddedTransaction) (w : World) : World :=
  {| orders := orders w; transactions := transactions w ++ [t];
     invoked := invoked w; chain_requests := chain_requests w |}.

(** What follows the call of the strategy: the swap info is built, then
    the swap is recorded. *)
Definition recording (t : InterfaceTrade) (acc : Account)
    (supp : option Z) (slip : Percent) (result : SwapResult) : M unit :=
  info <- lift (swapInfo_of t slip result) ;;
  record_swap t acc supp info result.

(** A run of the callback, step by step. *)
Lemma callback_run tr acc sc supp slip s w :
  callback tr acc sc supp slip s w =
  match validation tr acc sc supp w with
  | (Thrown e, w1) => (Thrown e, w1)
  | (Returned _, w1) =>
      match await_swap s with
      | Thrown e => (Thrown e, invoke_in s w1)
      | Returned result =>
          match tr with
          | None => (Thrown TypeError, invoke_in s w1)
          | Some t =>
              match recording t acc supp slip result (invoke_in s w1) with
              | (Returned _, w2) => (Returned result, w2)
              | (Thrown e, w2) => (Thrown e, w2)
              end
          end
      end
  end.
Proof.
  unfold callback, recording, bind, call_swap, invoke_in, lift.
  destruct (validation tr acc sc supp w) as [[[] | e] w1]; [| done].
  destruct (await_swap s) as [result | e]; [| done].
  destruct tr as [t |]; [| done].
  destruct (swapInfo_of t slip result) as [info | e]; [| done].
  destruct (record_swap _ _ _ _ _ _) as [[[] | e] w2]; done.
Qed.

(** The swap info, when it is built, has the flag of the fill type. *)
Lemma swapInfo_of_flag t slip result info :
  swapInfo_of t slip result = Returned info →
  isUniswapXOrder info
  = bool_decide (type result = UniswapX)
    || bool_decide (type result = UniswapXv2).
Proof.
  unfold swapInfo_of, and_then.
  destruct (currencyId _); [| done]. destruct (currencyId _); [| done].
  case_decide;
    [destruct (minimumAmountOut _ _) | destruct (maximumAmountIn _ _)];
    try done; by intros [= <-].
Qed.

(** What the recording ends in: an error of a library call, with nothing
    recorded; or one order, for the two UniswapX fill types; or one
    transaction, for any other fill type. *)
Lemma recording_cases t acc supp slip result w :
  (∃ e, recording t acc supp slip result w = (Thrown e, w)
        ∧ (swapInfo_of t slip result = Thrown e
           ∨ (∃ info, swapInfo_of t slip result = Returned info
                      ∧ type result ≠ UniswapX ∧ type result ≠ UniswapXv2
                      ∧ deadline_number result = Thrown e)))
  ∨ (∃ info o,
       swapInfo_of t slip result = Returned info
       ∧ (type result = UniswapX ∨ type result = UniswapXv2)
       ∧ recording t acc supp slip result w = (Returned (), order_in o w)
       ∧ offerer o = address acc
       ∧ order_orderHash o = orderHash (response result)
       ∧ order_chainId o = supp
       ∧ expiry o = response_deadline (response result)
       ∧ swapInfo o = info
       ∧ order_encodedOrder o = encodedOrder (response result))
  ∨ (∃ info deadline' tx,
       swapInfo_of t slip result = Returned info
       ∧ type result ≠ UniswapX ∧ type result ≠ UniswapXv2
       ∧ deadline_number result = Returned deadline'
       ∧ recording t acc supp slip result w = (Returned (), transaction_in tx w)
       ∧ added_response tx = response result
       ∧ added_info tx = info
       ∧ added_deadline tx = deadline').
Proof.
  unfold recording, bind, lift.
  destruct (swapInfo_of t slip result) as [info | e]; [| left; eauto].
  unfold record_swap, bind, lift, addOrder, addTransaction.
  destruct (type result) eqn:Hty.
  1, 4: destruct (deadline_number result) as [deadline' | e];
    [right; right; eexists info, deadline', _; split_and!; done
    | left; exists e; split; [done |]; right; exists info; done].
  all: right; left; eexists info, _; split_and!; eauto.
Qed.

Lemma recording_invoked t acc supp slip result w :
  invoked (recording t acc supp slip result w).2 = invoked w.
Proof.
  destruct (recording_cases t acc supp slip result w)
    as [(e & -> & _) | [(info & o & _ & _ & -> & _)
                        | (info & d & tx & _ & _ & _ & _ & -> & _)]]; done.
Qed.

Lemma recording_chain_requests t acc supp slip result w :
  chain_requests (recording t acc supp slip result w).2 = chain_requests w.
Proof.
  destruct (recording_cases t acc supp slip result w)
    as [(e & -> & _) | [(info & o & _ & _ & -> & _)
                        | (info & d & tx & _ & _ & _ & _ & -> & _)]]; done.
Qed.

(** A run delegates to a strategy callback: it invokes that callback,
    once and no other; it fails with the error of the callback when the
    callback fails; and it returns nothing but the result of the
    callback. *)
Definition delegates_to (cb : M SwapResult) (s : SwapStrategy) (w : World)
  : Prop :=
  invoked (cb w).2 = invoked w ++ [s]
  ∧ (∀ e, await_swap s = Thrown e → (cb w).1 = Thrown e)
  ∧ (∀ result, (cb w).1 = Returned result → await_swap s = Returned result).

Lemma app_singleton_inv {A} (l : list A) (x y : A) :
  l ++ [x] = l ++ [y] → x = y.
Proof. intros H%app_inv_head. by injection H. Qed.

Lemma app_singleton_neq {A} (l : list A) (x : A) : l ≠ l ++ [x].
Proof.
  intros H. apply (f_equal length) in H. rewrite length_app in H. cbn in H. lia.
Qed.

(** On an input that passes the validation the callback delegates to the
    strategy it was made with. *)
Lemma callback_delegates tr acc sc supp slip s w :
  ¬ invalid_input tr acc sc supp →
  delegates_to (callback tr acc sc supp slip s) s w.
Proof.
  intros Hok. unfold delegates_to. rewrite callback_run.
  pose proof (validation_frame tr acc sc supp w) as (_ & _ & Hinv).
  destruct (validation_returned _ _ _ _ w Hok) as [Hret [t ->]].
  destruct (validation _ _ _ _ w) as [[[] | e] w1]; [| done].
  cbn in Hinv.
  destruct (await_swap s) as [result | e].
  - pose proof (recording_invoked t acc supp slip result (invoke_in s w1))
      as Hrec.
    destruct (recording t acc supp slip result (invoke_in s w1))
      as [[[] | e] w2]; cbn in *; rewrite Hrec, Hinv;
      split_and!; try done; by intros ? [= <-].
  - cbn. rewrite Hinv. split_and!; done.
Qed.


(** C4: the callback delegates to one of two strategies, chosen by the
    variant of the trade.  On an input that passes the validation, a run
    delegates to the UniswapX callback exactly when the trade is a
    UniswapX trade, and to the universal-router callback exactly when it
    is not; on a refused input it delegates to no strategy. *)
Theorem useSwapCallback_selects (h : HookValues) (p : Props)
    (cb : M SwapResult) :
  useSwapCallback h p = Returned cb →
  let supported := useSupportedChainId (account_chainId (account h)) in
  ∃ feeFields,
    getUniversalRouterFeeFields (trade p) = Returned feeFields
    ∧ ∀ w,
        (invalid_input (trade p) (account h) (swapChainId h) supported →
         ∀ s, ¬ delegates_to cb s w)
        ∧ (¬ invalid_input (trade p) (account h) (swapChainId h) supported →
           (delegates_to cb (uniswapXSwapCallback p) w
            ↔ isUniswapXTrade (trade p) = true)
           ∧ (delegates_to cb (universalRouterSwapCallback p feeFields) w
              ↔ isUniswapXTrade (trade p) ≠ true)).
Proof.
  intros Hcb supported.
  destruct (useSwapCallback_inv _ _ _ Hcb) as (feeFields & Hfee & ->).
  exists feeFields. split; [done |]. intros w. split.
  - intros Hbad%(validation_thrown_iff _ _ _ _ w) s [Hinv' _].
    rewrite callback_run in Hinv'.
    pose proof (validation_frame (trade p) (account h) (swapChainId h)
                  supported w) as (_ & _ & Hinv).
    fold supported in Hinv'.
    destruct (validation _ _ _ _ w) as [[[] | e] w1]; [done |].
    cbn in *. rewrite Hinv in Hinv'. by apply app_singleton_neq in Hinv'.
  - intros Hok.
    pose proof (callback_delegates _ _ _ _ (allowedSlippage p)
                  (swapCallback p feeFields) w Hok) as Hdel.
    assert (Huniq : ∀ s,
              delegates_to
                (callback (trade p) (account h) (swapChainId h) supported
                   (allowedSlippage p) (swapCallback p feeFields)) s w →
              s = swapCallback p feeFields).
    { intros s [Hs _]. destruct Hdel as [Hd _]. fold supported in Hd.
      rewrite Hd in Hs. by apply app_singleton_inv in Hs. }
    unfold swapCallback in *.
    destruct (isUniswapXTrade (trade p)); split; split; try done.
    + by intros H%Huniq.
    + by intros H%Huniq.
Qed.

(** C5 (amended): once the selected strategy has returned a result, the
    swap is recorded, unless a library call made for the record throws.
    When the swap info is built: for the fill types [UniswapX] and
    [UniswapXv2] an order is recorded, with the address of the account as
    offerer and the order hash, the deadline and the encoded order of the
    result; for every other fill type a transaction is recorded, with the
    response of the result, when the deadline of the result is absent or
    [toNumber] accepts it.  Nothing else is recorded, and the callback
    returns the result of the strategy.  When building the swap info or
    [toNumber] throws, the callback throws that error and records
    nothing. *)
Theorem useSwapCallback_records (h : HookValues) (p : Props)
    (cb : M SwapResult) (feeFields : option UniversalRouterFeeField)
    (result : SwapResult) (w : World) :
  useSwapCallback h p = Returned cb →
  getUniversalRouterFeeFields (trade p) = Returned feeFields →
  ¬ invalid_input (trade p) (account h) (swapChainId h)
      (useSupportedChainId (account_chainId (account h))) →
  await_swap (swapCallback p feeFields) = Returned result →
  ∃ t, trade p = Some t
  ∧ (∀ info, swapInfo_of t (allowedSlippage p) result = Returned info →
      (type result = UniswapX ∨ type result = UniswapXv2 →
         (cb w).1 = Returned result
         ∧ ∃ o, orders (cb w).2 = orders w ++ [o]
                ∧ transactions (cb w).2 = transactions w
                ∧ offerer o = address (account h)
                ∧ order_orderHash o = orderHash (response result)
                ∧ expiry o = response_deadline (response result)
                ∧ order_encodedOrder o = encodedOrder (response result))
      ∧ (type result ≠ UniswapX → type result ≠ UniswapXv2 →
         (∀ deadline', deadline_number result = Returned deadline' →
            (cb w).1 = Returned result
            ∧ ∃ tx, transactions (cb w).2 = transactions w ++ [tx]
                    ∧ orders (cb w).2 = orders w
                    ∧ added_response tx = response result
                    ∧ added_deadline tx = deadline')
         ∧ (∀ e, deadline_number result = Thrown e →
              (cb w).1 = Thrown e
              ∧ orders (cb w).2 = orders w
              ∧ transactions (cb w).2 = transactions w)))
  ∧ (∀ e, swapInfo_of t (allowedSlippage p) result = Thrown e →
       (cb w).1 = Thrown e
       ∧ orders (cb w).2 = orders w
       ∧ transactions (cb w).2 = transactions w).
Proof.
  intros Hcb Hfee Hok Hres.
  destruct (useSwapCallback_inv _ _ _ Hcb) as (feeFields' & Hfee' & ->).
  assert (feeFields' = feeFields) as -> by congruence.
  rewrite callback_run, Hres.
  set (supported := useSupportedChainId (account_chainId (account h))) in *.
  pose proof (validation_frame (trade p) (account h) (swapChainId h)
                supported w) as (Hord & Htx & _).
  destruct (validation_returned _ _ _ _ w Hok) as [Hret [t Ht]].
  destruct (validation _ _ _ _ w) as [[[] | e] w1]; [| done].
  cbn in Hord, Htx. rewrite Ht. exists t. split; [done |].
  destruct (recording_cases t (account h) supported (allowedSlippage p) result
              (invoke_in (swapCallback p feeFields) w1))
    as [(e & -> & Hwhy)
       | [(info & o & Hinfo & Hty & -> & Hoff & Hhash & _ & Hexp & _ & Henc)
         | (info & d & tx & Hinfo & Hx & Hx2 & Hd & -> & Hresp & _ & Hdl)]];
    cbn; rewrite ?Hord, ?Htx.
  - split.
    + intros info Hinfo. split.
      * intros Hty.
        destruct Hwhy as [? | (? & _ & Hx & Hx2 & _)]; [congruence |].
        by destruct Hty.
      * intros _ _.
        destruct Hwhy as [? | (? & _ & _ & _ & Hd)]; [congruence |].
        split; [intros d Hd'; congruence |].
        intros e' He'. assert (e' = e) as -> by congruence. done.
    + intros e' He'. destruct Hwhy as [Hi | (? & ? & _)]; [| congruence].
      assert (e' = e) as -> by congruence. done.
  - split.
    + intros info' Hinfo'. split.
      * intros _. split; [done |]. exists o. split_and!; done.
      * intros Hx Hx2. by destruct Hty.
    + intros e He. congruence.
  - split.
    + intros info' Hinfo'. split.
      * intros [Hty | Hty]; done.
      * intros _ _. split.
        -- intros d' Hd'. assert (d' = d) as -> by congruence.
           split; [done |]. exists tx. split_and!; done.
        -- intros e He. congruence.
    + intros e He. congruence.
Qed.

(** C6: when the validation throws, so does the callback, and nothing is
    recorded: the orders and the transactions are as before.  An order or
    a transaction is recorded only in a run in which the strategy callback
    was invoked and returned a result. *)
Theorem useSwapCallback_validation_failure (h : HookValues) (p : Props)
    (cb : M SwapResult) (w : World) :
  useSwapCallback h p = Returned cb →
  let supported := useSupportedChainId (account_chainId (account h)) in
  (is_thrown (validation (trade p) (account h) (swapChainId h) supported w).1
     = true →
   is_thrown (cb w).1 = true
   ∧ orders (cb w).2 = orders w
   ∧ transactions (cb w).2 = transactions w)
  ∧ (orders (cb w).2 ≠ orders w ∨ transactions (cb w).2 ≠ transactions w →
     ∃ s result,
       invoked (cb w).2 = invoked w ++ [s]
       ∧ await_swap s = Returned result
       ∧ (cb w).1 = Returned result).
Proof.
  intros (feeFields & Hfee & ->)%useSwapCallback_inv supported.
  rewrite callback_run. fold supported.
  pose proof (validation_frame (trade p) (account h) (swapChainId h)
                supported w) as (Hord & Htx & Hinv).
  destruct (validation _ _ _ _ w) as [[[] | e] w1]; cbn in Hord, Htx, Hinv.
  - split; [by cbn |].
    destruct (await_swap (swapCallback p feeFields)) as [result | e] eqn:Hres.
    + destruct (trade p) as [t |].
      * destruct (recording_cases t (account h) supported (allowedSlippage p)
                    result (invoke_in (swapCallback p feeFields) w1))
          as [(e & Heq & _)
             | [(info & o & _ & _ & Heq & _)
               | (info & d & tx & _ & _ & _ & _ & Heq & _)]];
          rewrite Heq; cbn; rewrite ?Hord, ?Htx, ?Hinv.
        -- by intros [? | ?].
        -- intros _. by exists (swapCallback p feeFields), result.
        -- intros _. by exists (swapCallback p feeFields), result.
      * cbn. rewrite Hord, Htx. by intros [? | ?].
    + cbn. rewrite Hord, Htx. by intros [? | ?].
  - cbn. split; [done |]. rewrite Hord, Htx. by intros [? | ?].
Qed.

(** ** More on the callback *)

(** The world after the wallet was asked to switch to a chain. *)
Definition request_in (chain : Z) (w : World) : World :=
  {| orders := orders w; transactions := transactions w;
     invoked := invoked w; chain_requests := chain_requests w ++ [chain] |}.

(** The checks that come before the chain switch all pass. *)
Definition passes_checks (trade : option InterfaceTrade) (account : Account)
    (swapChainId : option Z) (chain : Z) : Prop :=
  is_Some trade
  ∧ isConnected account = true
  ∧ truthy_string (address account) = true
  ∧ swapChainId = Some chain
  ∧ truthy_number swapChainId = true
  ∧ isEVMChain chain = true.

(** The same chain, seen through the test the code makes. *)
Lemma connected_chain_differs supp c :
  truthy_number (Some c) = true →
  negb (truthy_number supp) || negb (bool_decide (supp = Some c))
  = negb (bool_decide (supp = Some c)).
Proof.
  intros Hc. destruct (truthy_number supp) eqn:Hs; [done |]. cbn.
  rewrite bool_decide_eq_false_2; [done |]. intros ->. congruence.
Qed.

(** What a run of the validation ends in, case by case. *)
Lemma validation_spec tr acc sc supp w :
  match validation tr acc sc supp w with
  | (Returned _, w1) =>
      ∃ c, passes_checks tr acc sc c
           ∧ ((supp = sc ∧ w1 = w)
              ∨ (supp ≠ sc ∧ selectChain c = Returned true
                 ∧ w1 = request_in c w))
  | (Thrown e, w1) =>
      (w1 = w ∧ ¬ ∃ c, passes_checks tr acc sc c)
      ∨ ∃ c, passes_checks tr acc sc c ∧ supp ≠ sc ∧ w1 = request_in c w
             ∧ (selectChain c = Returned false ∧ e = WrongChain
                ∨ selectChain c = Thrown e)
  end.
Proof.
  unfold validation, passes_checks, bind, call_selectChain, throw, ret.
  destruct tr as [t |];
    [| left; split; [done | intros (c & [? ?] & _); done]].
  destruct (isConnected acc) eqn:Hconn; cbn;
    [| left; split; [done | intros (c & ? & ? & _); done]].
  destruct (truthy_string (address acc)) eqn:Haddr; cbn;
    [| left; split; [done | intros (c & ? & ? & ? & _); done]].
  destruct sc as [c |];
    [| left; split; [done | intros (c & ? & ? & ? & ? & _); done]].
  destruct (truthy_number (Some c)) eqn:Hsc; cbn;
    [| left; split; [done | intros (c' & ? & ? & ? & ? & ? & _); done]].
  destruct (isEVMChain c) eqn:Hevm; cbn;
    [| left; split; [done |];
       intros (c' & ? & ? & ? & [= <-] & ? & ?); congruence].
  rewrite connected_chain_differs by done.
  assert (Hpass : is_Some (Some t) ∧ true = true ∧ true = true
                  ∧ Some c = Some c ∧ true = true ∧ isEVMChain c = true)
    by (split_and!; eauto).
  case_bool_decide as Hsupp; cbn.
  - exists c. split; [done |]. by left.
  - destruct (selectChain c) as [[|] | e] eqn:Hsel; cbn.
    + exists c. split; [done |]. right. done.
    + right. exists c. split_and!; try done. by left.
    + right. exists c. split_and!; try done. by right.
Qed.

(** X12: an error of the strategy is the error of the callback.  On an
    input that passes the validation, when the selected strategy callback
    throws, the callback throws the same error after invoking it once, and
    records neither an order nor a transaction. *)
Theorem useSwapCallback_strategy_error (h : HookValues) (p : Props)
    (cb : M SwapResult) (feeFields : option UniversalRouterFeeField)
    (e : Error) (w : World) :
  useSwapCallback h p = Returned cb →
  getUniversalRouterFeeFields (trade p) = Returned feeFields →
  ¬ invalid_input (trade p) (account h) (swapChainId h)
      (useSupportedChainId (account_chainId (account h))) →
  await_swap (swapCallback p feeFields) = Thrown e →
  (cb w).1 = Thrown e
  ∧ invoked (cb w).2 = invoked w ++ [swapCallback p feeFields]
  ∧ orders (cb w).2 = orders w
  ∧ transactions (cb w).2 = transactions w.
Proof.
  intros Hcb Hfee Hok Hres.
  destruct (useSwapCallback_inv _ _ _ Hcb) as (feeFields' & Hfee' & ->).
  assert (feeFields' = feeFields) as -> by congruence.
  rewrite callback_run, Hres.
  set (supported := useSupportedChainId (account_chainId (account h))) in *.
  pose proof (validation_frame (trade p) (account h) (swapChainId h)
                supported w) as (Hord & Htx & Hinv).
  destruct (validation_returned _ _ _ _ w Hok) as [Hret _].
  destruct (validation _ _ _ _ w) as [[[] | e'] w1]; [| done].
  cbn in *. by rewrite Hord, Htx, Hinv.
Qed.

(** X13: a run of the callback records one thing or nothing.  When it
    returns, one order or one transaction was added at the end, and not
    both; when it throws, nothing was added.  What was recorded before is
    never touched. *)
Theorem useSwapCallback_one_record (h : HookValues) (p : Props)
    (cb : M SwapResult) (w : World) :
  useSwapCallback h p = Returned cb →
  (∃ result,
     (cb w).1 = Returned result
     ∧ ((∃ o, orders (cb w).2 = orders w ++ [o]
              ∧ transactions (cb w).2 = transactions w)
        ∨ (∃ t, transactions (cb w).2 = transactions w ++ [t]
                ∧ orders (cb w).2 = orders w)))
  ∨ (is_thrown (cb w).1 = true
     ∧ orders (cb w).2 = orders w
     ∧ transactions (cb w).2 = transactions w).
Proof.
  intros (feeFields & Hfee & ->)%useSwapCallback_inv.
  rewrite callback_run.
  set (supported := useSupportedChainId (account_chainId (account h))).
  pose proof (validation_frame (trade p) (account h) (swapChainId h)
                supported w) as (Hord & Htx & _).
  destruct (validation _ _ _ _ w) as [[[] | e] w1]; cbn in Hord, Htx;
    [| by right].
  destruct (await_swap (swapCallback p feeFields)) as [result | e];
    [| by right].
  destruct (trade p) as [t |]; [| by right].
  destruct (recording_cases t (account h) supported (allowedSlippage p)
              result (invoke_in (swapCallback p feeFields) w1))
    as [(e & Heq & _)
       | [(info & o & _ & _ & Heq & _)
         | (info & d & tx & _ & _ & _ & _ & Heq & _)]];
    rewrite Heq; cbn; rewrite Hord, Htx.
  - by right.
  - left. exists result. split; [done |]. left. eauto.
  - left. exists result. split; [done |]. right. eauto.
Qed.

(** X14: the [isUniswapXOrder] flag of what is recorded tells how it was
    recorded: it is set in every order the callback adds and unset in
    every transaction the callback adds. *)
Theorem useSwapCallback_flag (h : HookValues) (p : Props)
    (cb : M SwapResult) (w : World) :
  useSwapCallback h p = Returned cb →
  (∀ o, orders (cb w).2 = orders w ++ [o] →
        isUniswapXOrder (swapInfo o) = true)
  ∧ (∀ t, transactions (cb w).2 = transactions w ++ [t] →
          isUniswapXOrder (added_info t) = false).
Proof.
  intros (feeFields & Hfee & ->)%useSwapCallback_inv.
  rewrite callback_run.
  set (supported := useSupportedChainId (account_chainId (account h))).
  pose proof (validation_frame (trade p) (account h) (swapChainId h)
                supported w) as (Hord & Htx & _).
  destruct (validation _ _ _ _ w) as [[[] | e] w1]; cbn in Hord, Htx;
    [| cbn; rewrite Hord, Htx; split; intros ? H;
       by apply app_singleton_neq in H].
  destruct (await_swap (swapCallback p feeFields)) as [result | e];
    [| cbn; rewrite Hord, Htx; split; intros ? H;
       by apply app_singleton_neq in H].
  destruct (trade p) as [t |];
    [| cbn; rewrite Hord, Htx; split; intros ? H;
       by apply app_singleton_neq in H].
  destruct (recording_cases t (account h) supported (allowedSlippage p)
              result (invoke_in (swapCallback p feeFields) w1))
    as [(e & Heq & _)
       | [(info & o & Hinfo & Hty & Heq & _ & _ & _ & _ & Hi & _)
         | (info & d & tx & Hinfo & Hx & Hx2 & _ & Heq & _ & Hi & _)]];
    rewrite Heq; cbn; rewrite Hord, Htx;
    apply swapInfo_of_flag in Hinfo || idtac.
  - split; intros ? H; by apply app_singleton_neq in H.
  - split; intros x H; [| by apply app_singleton_neq in H].
    apply app_singleton_inv in H. subst x. rewrite Hi, Hinfo.
    destruct Hty as [-> | ->]; done.
  - split; intros x H; [by apply app_singleton_neq in H |].
    apply app_singleton_inv in H. subst x. rewrite Hi, Hinfo.
    rewrite !bool_decide_eq_false_2; done.
Qed.

(** X15: the wallet is asked to switch chains at most once in a run, and
    only to the swap chain, and only when the chain the wallet is
    connected to is another one (or not a supported one); it is not asked
    before the trade, the account and the swap chain have passed their
    checks. *)
Theorem useSwapCallback_chain_requests (h : HookValues) (p : Props)
    (cb : M SwapResult) (w : World) :
  useSwapCallback h p = Returned cb →
  let supported := useSupportedChainId (account_chainId (account h)) in
  (chain_requests (cb w).2 = chain_requests w
   ∧ (supported = swapChainId h
      ∨ ¬ ∃ c, passes_checks (trade p) (account h) (swapChainId h) c))
  ∨ (∃ c, chain_requests (cb w).2 = chain_requests w ++ [c]
          ∧ passes_checks (trade p) (account h) (swapChainId h) c
          ∧ supported ≠ swapChainId h).
Proof.
  intros (feeFields & Hfee & ->)%useSwapCallback_inv supported.
  rewrite callback_run. fold supported.
  pose proof (validation_spec (trade p) (account h) (swapChainId h)
                supported w) as Hv.
  assert (Hrun : ∀ w1,
    chain_requests
      (match await_swap (swapCallback p feeFields) with
       | Returned result =>
           match trade p with
           | Some t =>
               match recording t (account h) supported (allowedSlippage p)
                       result (invoke_in (swapCallback p feeFields) w1) with
               | (Returned _, w2) => (Returned result, w2)
               | (Thrown e, w2) => (Thrown e, w2)
               end
           | None => (Thrown TypeError, invoke_in (swapCallback p feeFields) w1)
           end
       | Thrown e => (Thrown e, invoke_in (swapCallback p feeFields) w1)
       end).2 = chain_requests w1).
  { intros w1. destruct (await_swap _) as [result | e]; [| done].
    destruct (trade p) as [t |]; [| done].
    pose proof (recording_chain_requests t (account h) supported
                  (allowedSlippage p) result
                  (invoke_in (swapCallback p feeFields) w1)) as Hrec.
    by destruct (recording _ _ _ _ _ _) as [[[] | e] w2]. }
  destruct (validation _ _ _ _ w) as [[[] | e] w1].
  - rewrite Hrun.
    destruct Hv as (c & Hpass & [[Hsame ->] | (Hdiff & _ & ->)]).
    + left. split; [done | by left].
    + right. exists c. done.
  - destruct Hv as [[-> Hno] | (c & Hpass & Hdiff & -> & _)].
    + left. split; [done | by right].
    + right. exists c. done.
Qed.

(** X16: an order is recorded under the chain the wallet was connected to
    when the hook rendered.  So the chain of a recorded order is the swap
    chain exactly when the run did not have to ask for a chain switch;
    after a switch it is the chain the wallet was on before, or
    [undefined]. *)
Theorem useSwapCallback_order_chain (h : HookValues) (p : Props)
    (cb : M SwapResult) (w : World) (o : UniswapXOrderDetails) :
  useSwapCallback h p = Returned cb →
  orders (cb w).2 = orders w ++ [o] →
  order_chainId o = useSupportedChainId (account_chainId (account h))
  ∧ (order_chainId o = swapChainId h
     ↔ chain_requests (cb w).2 = chain_requests w).
Proof.
  intros (feeFields & Hfee & ->)%useSwapCallback_inv.
  rewrite callback_run.
  set (supported := useSupportedChainId (account_chainId (account h))).
  pose proof (validation_frame (trade p) (account h) (swapChainId h)
                supported w) as (Hord & _ & _).
  pose proof (validation_spec (trade p) (account h) (swapChainId h)
                supported w) as Hv.
  destruct (validation _ _ _ _ w) as [[[] | e] w1]; cbn in Hord;
    [| cbn; rewrite Hord; intros H; by apply app_singleton_neq in H].
  destruct (await_swap (swapCallback p feeFields)) as [result | e];
    [| cbn; rewrite Hord; intros H; by apply app_singleton_neq in H].
  destruct (trade p) as [t |];
    [| cbn; rewrite Hord; intros H; by apply app_singleton_neq in H].
  destruct Hv as (c & Hpass & Hcase).
  destruct (recording_cases t (account h) supported (allowedSlippage p)
              result (invoke_in (swapCallback p feeFields) w1))
    as [(e & Heq & _)
       | [(info & o' & _ & _ & Heq & _ & _ & Hchain & _)
         | (info & d & tx & _ & _ & _ & _ & Heq & _)]];
    rewrite Heq; cbn; rewrite Hord; intros H;
    try (by apply app_singleton_neq in H).
  apply app_singleton_inv in H. subst o'. split; [done |].
  rewrite Hchain.
  destruct Hcase as [[Hsame ->] | (Hdiff & _ & ->)]; cbn; [done |].
  split; [done |]. intros Heq'. symmetry in Heq'.
  by apply app_singleton_neq in Heq'.
Qed.

(** X17: the checks are made in a fixed order and the first that fails
    names the error: no trade; then an account that is not connected or
    has no address; then no swap chain; then a swap chain that is not an
    EVM chain; then, on another connected chain, a switch that is refused.
    An error of the switch itself comes out as it is. *)
Theorem useSwapCallback_first_error (h : HookValues) (p : Props)
    (cb : M SwapResult) (w : World) :
  useSwapCallback h p = Returned cb →
  let supported := useSupportedChainId (account_chainId (account h)) in
  (trade p = None → (cb w).1 = Thrown MissingTrade)
  ∧ (is_Some (trade p) →
     isConnected (account h) = false
     ∨ truthy_string (address (account h)) = false →
     (cb w).1 = Thrown WalletNotConnected)
  ∧ (is_Some (trade p) → isConnected (account h) = true →
     truthy_string (address (account h)) = true →
     truthy_number (swapChainId h) = false →
     (cb w).1 = Thrown MissingSwapChainId)
  ∧ (∀ c, is_Some (trade p) → isConnected (account h) = true →
       truthy_string (address (account h)) = true →
       swapChainId h = Some c → truthy_number (swapChainId h) = true →
       (isEVMChain c = false → (cb w).1 = Thrown NonEVMChain)
       ∧ (isEVMChain c = true → supported ≠ swapChainId h →
          (selectChain c = Returned false → (cb w).1 = Thrown WrongChain)
          ∧ (∀ e, selectChain c = Thrown e → (cb w).1 = Thrown e))).
Proof.
  intros (feeFields & Hfee & ->)%useSwapCallback_inv supported.
  split_and!.
  - intros Htr. rewrite callback_run. unfold validation. by rewrite Htr.
  - intros [t Htr] Hacc. rewrite callback_run. unfold validation.
    rewrite Htr. by destruct Hacc as [-> | ->]; rewrite ?orb_true_r.
  - intros [t Htr] Hconn Haddr Hsc. rewrite callback_run. unfold validation.
    rewrite Htr, Hconn, Haddr. cbn.
    destruct (swapChainId h) as [c |]; [| done]. by rewrite Hsc.
  - intros c [t Htr] Hconn Haddr Hsc Htruthy.
    rewrite callback_run. unfold validation.
    rewrite Htr, Hconn, Haddr, Hsc. rewrite Hsc in Htruthy.
    rewrite Htruthy. cbn. split.
    + by intros ->.
    + intros -> Hdiff. cbn. rewrite connected_chain_differs by done.
      rewrite bool_decide_eq_false_2 by done.
      cbn. unfold bind, call_selectChain. split.
      * by intros ->.
      * by intros e ->.
Qed.

(** X18: what the invoked strategy was made with.  The UniswapX callback
    is invoked only for a UniswapX trade, and was given that trade.  The
    universal-router callback was given the trade when the trade is
    classic and no trade otherwise; it has fee fields only when it has the
    trade, and that trade has a swap fee. *)
Theorem useSwapCallback_strategy_args (h : HookValues) (p : Props)
    (cb : M SwapResult) (w : World) (s : SwapStrategy) :
  useSwapCallback h p = Returned cb →
  invoked (cb w).2 = invoked w ++ [s] →
  match s with
  | useUniswapXSwapCallback a =>
      isUniswapXTrade (trade p) = true
      ∧ ux_trade a = trade p
      ∧ ux_allowedSlippage a = allowedSlippage p
  | useUniversalRouterSwapCallback a =>
      isUniswapXTrade (trade p) = false
      ∧ ur_trade a = (if isClassicTrade (trade p) then trade p else None)
      ∧ slippageTolerance (ur_options a) = allowedSlippage p
      ∧ permit (ur_options a) = permitSignature p
      ∧ (is_Some (feeField (ur_options a)) →
         ∃ t f, ur_trade a = Some t ∧ trade p = Some t ∧ swapFee t = Some f)
  end.
Proof.
  intros (feeFields & Hfee & ->)%useSwapCallback_inv.
  set (supported := useSupportedChainId (account_chainId (account h))).
  assert (Hgoal : swapCallback p feeFields = s →
    match s with
    | useUniswapXSwapCallback a =>
        isUniswapXTrade (trade p) = true
        ∧ ux_trade a = trade p
        ∧ ux_allowedSlippage a = allowedSlippage p
    | useUniversalRouterSwapCallback a =>
        isUniswapXTrade (trade p) = false
        ∧ ur_trade a = (if isClassicTrade (trade p) then trade p else None)
        ∧ slippageTolerance (ur_options a) = allowedSlippage p
        ∧ permit (ur_options a) = permitSignature p
        ∧ (is_Some (feeField (ur_options a)) →
           ∃ t f, ur_trade a = Some t ∧ trade p = Some t ∧ swapFee t = Some f)
    end).
  { intros <-. unfold swapCallback, uniswapXSwapCallback,
      universalRouterSwapCallback.
    destruct (isUniswapXTrade (trade p)) eqn:HX; cbn; [done |].
    split_and!; try done. intros [ff ->].
    unfold getUniversalRouterFeeFields in Hfee.
    destruct (isClassicTrade (trade p)); cbn in Hfee; [| done].
    destruct (trade p) as [t |]; [| done].
    destruct (swapFee t) as [f |] eqn:Hf; [| done]. by exists t, f. }
  intros Hinv'. apply Hgoal.
  destruct (is_thrown (validation (trade p) (account h) (swapChainId h)
                         supported w).1) eqn:Hbad.
  - exfalso.
    rewrite callback_run in Hinv'. fold supported in Hinv'.
    pose proof (validation_frame (trade p) (account h) (swapChainId h)
                  supported w) as (_ & _ & Hinv).
    destruct (validation _ _ _ _ w) as [[[] | e] w1]; [done |].
    cbn in *. rewrite Hinv in Hinv'. by apply app_singleton_neq in Hinv'.
  - assert (Hok : ¬ invalid_input (trade p) (account h) (swapChainId h)
                      supported)
      by (rewrite <- (validation_thrown_iff _ _ _ _ w); congruence).
    destruct (callback_delegates _ _ _ _ (allowedSlippage p)
                (swapCallback p feeFields) w Hok) as [Hd _].
    fold supported in Hd. rewrite Hd in Hinv'.
    by apply app_singleton_inv in Hinv'.
Qed.

(** X19: rendering the hook throws in two cases only: for an undefined
    trade that the guard for classic trades lets through, which a type
    predicate does not; and for a classic trade with a swap fee that is
    not an exact-input trade, when [BigNumber.from] refuses the amount of
    the fee. *)
Theorem useSwapCallback_render_throws_iff (h : HookValues) (p : Props) :
  is_thrown (useSwapCallback h p) = true
  ↔ (trade p = None ∧ isClassicTrade None = true)
    ∨ (∃ t f, trade p = Some t ∧ isClassicTrade (Some t) = true
              ∧ swapFee t = Some f ∧ tradeType t ≠ EXACT_INPUT
              ∧ is_thrown (BigNumber_from (amount f)) = true).
Proof.
  unfold useSwapCallback, getUniversalRouterFeeFields.
  destruct (trade p) as [t |].
  - destruct (isClassicTrade (Some t)) eqn:Hc; cbn; [| naive_solver].
    destruct (swapFee t) as [f |] eqn:Hf; [| cbn; naive_solver].
    case_decide as Hty; cbn; [naive_solver |].
    destruct (BigNumber_from (amount f)) eqn:Hfrom; cbn.
    + split; [done |]. intros [[? _] | (t' & f' & [= <-] & _ & Hf' & _ & Hthrown)];
        [done |]. rewrite Hf in Hf'. injection Hf' as <-.
      by rewrite Hfrom in Hthrown.
    + split; [| done]. intros _. right. exists t, f.
      split_and!; try done. by rewrite Hfrom.
  - destruct (isClassicTrade None); cbn; naive_solver.
Qed.

End Hook.

(** ** The status of a submitted swap *)

Section Status.

Context {TransactionStatus : Type}.

(** The part of a stored transaction that is read here. *)
Record TransactionDetails := { status : TransactionStatus }.

(** Modelled from the spec: the hooks of [state/transactions] are not among
    the sources.  The transaction store holds the transactions by their
    hash; [useTransaction] gives the transaction stored under a hash, and
    [undefined] when there is no hash or nothing is stored under it. *)
Definition useTransaction (store : gmap string TransactionDetails)
    (transactionHash : option string) : option TransactionDetails :=
  match transactionHash with
  | None => None
  | Some h => store !! h
  end.

Definition useSwapTransactionStatus (store : gmap string TransactionDetails)
    (swapResult : option SwapResult) : option TransactionStatus :=
  let transaction :=
    useTransaction store
      (match swapResult with
       | Some r => if decide (type r = Classic) then hash (response r) else None
       | None => None
       end) in
  match transaction with
  | None => None
  | Some transaction => Some (status transaction)
  end.

(** C10: the status is [undefined] for every result whose fill type is not
    [Classic], and for every [Classic] result whose hash is not in the
    transaction store; otherwise it is the status of the transaction
    stored under the hash. *)
Theorem useSwapTransactionStatus_spec
    (store : gmap string TransactionDetails) (r : SwapResult) :
  (type r ≠ Classic → useSwapTransactionStatus store (Some r) = None)
  ∧ (type r = Classic →
     (∀ h, hash (response r) = Some h → store !! h = None) →
     useSwapTransactionStatus store (Some r) = None)
  ∧ (∀ h transaction, type r = Classic →
       hash (response r) = Some h → store !! h = Some transaction →
       useSwapTransactionStatus store (Some r) = Some (status transaction)).
Proof.
  unfold useSwapTransactionStatus, useTransaction. split_and!.
  - intros Hty. by case_decide.
  - intros Hty Hnone. case_decide; [| done].
    destruct (hash (response r)) as [h |]; [| done].
    by rewrite (Hnone h eq_refl).
  - intros h transaction Hty Hh Hstore. case_decide; [| done].
    by rewrite Hh, Hstore.
Qed.

(** Without a result there is no status either. *)
Lemma useSwapTransactionStatus_undefined
    (store : gmap string TransactionDetails) :
  useSwapTransactionStatus store None = None.
Proof. reflexivity. Qed.

End Status.

(** ** A sample render

    The imported functions are given sample bodies: the guards test the
    variant tag, every chain but one is an EVM chain, the wallet can
    switch to mainnet only, and each strategy returns a result of its own
    kind.  Percentages are in bips, currencies are known by their
    symbol. *)

Definition tag_isClassicTrade
    (t : option (InterfaceTrade (Percent := Z) (Currency := string))) : bool :=
  match t with
  | Some t => bool_decide (fillType t = Classic)
  | None => false
  end.

Definition tag_isUniswapXTrade
    (t : option (InterfaceTrade (Percent := Z) (Currency := string))) : bool :=
  match t with
  | Some t =>
      bool_decide (fillType t = UniswapX) || bool_decide (fillType t = UniswapXv2)
  | None => false
  end.

Definition classic_trade : InterfaceTrade (Percent := Z) (Currency := string) :=
  {| fillType := Classic; tradeType := EXACT_INPUT;
     inputAmount := {| currency := "ETH"; quotient := 1000 |};
     outputAmount := {| currency := "USDC"; quotient := 3000 |};
     swapFee := Some {| recipient := "0xfee"; percent := 25%Z; amount := "7" |};
     offchainOrderType := DUTCH_AUCTION |}.

Definition exact_output_trade
  : InterfaceTrade (Percent := Z) (Currency := string) :=
  {| fillType := Classic; tradeType := EXACT_OUTPUT;
     inputAmount := {| currency := "ETH"; quotient := 1000 |};
     outputAmount := {| currency := "USDC"; quotient := 3000 |};
     swapFee := Some {| recipient := "0xfee"; percent := 25%Z; amount := "7" |};
     offchainOrderType := DUTCH_AUCTION |}.

Definition auction_trade : InterfaceTrade (Percent := Z) (Currency := string) :=
  {| fillType := UniswapX; tradeType := EXACT_INPUT;
     inputAmount := {| currency := "ETH"; quotient := 1000 |};
     outputAmount := {| currency := "USDC"; quotient := 3000 |};
     swapFee := None;
     offchainOrderType := DUTCH_AUCTION |}.

Definition classic_result : SwapResult :=
  {| type := Classic;
     response := {| hash := Some "0xabc"; orderHash := None;
                    response_deadline := None; encodedOrder := None |};
     deadline := Some 1700000000%Z |}.

Definition auction_result : SwapResult :=
  {| type := UniswapX;
     response := {| hash := None; orderHash := Some "0xdef";
                    response_deadline := Some 1700000060%Z;
                    encodedOrder := Some "0x1234" |};
     deadline := None |}.

Definition sample_await
    (s : SwapStrategy (Percent := Z) (Currency := string)
           (PermitSignature := string) (FiatValues := unit))
  : Outcome Error SwapResult :=
  Returned (if is_uniswapX_strategy s then auction_result else classic_result).

Definition sample_selectChain (chain : Z) : Outcome Error bool :=
  Returned (bool_decide (chain = 1%Z)).

Definition sample_isEVMChain (chain : Z) : bool :=
  bool_decide (chain ≠ 501000101%Z).

(** A [BigNumber.from] that reads a string of decimal digits and refuses
    any other string. *)
Definition digit_of (a : Ascii.ascii) : option Z :=
  let n := Z.of_nat (Ascii.nat_of_ascii a) in
  if (48 <=? n)%Z && (n <=? 57)%Z then Some (n - 48)%Z else None.

Fixpoint parse_digits (s : string) (acc : Z) : option Z :=
  match s with
  | EmptyString => Some acc
  | String a s' =>
      match digit_of a with
      | Some d => parse_digits s' (10 * acc + d)%Z
      | None => None
      end
  end.

Definition sample_BigNumber_from (s : string) : Outcome Error Z :=
  match s with
  | EmptyString => Thrown (Rejected "invalid BigNumber string")
  | String _ _ =>
      match parse_digits s 0 with
      | Some z => Returned z
      | None => Thrown (Rejected "invalid BigNumber string")
      end
  end.

(** A [toNumber] that refuses what is not a safe integer. *)
Definition sample_toNumber (z : Z) : Outcome Error Z :=
  if (Z.abs z <? 2 ^ 53)%Z then Returned z else Thrown (Rejected "overflow").

Definition sample_currencyId (c : string) : Outcome Error string := Returned c.
Definition sample_minimumAmountOut
    (t : InterfaceTrade (Percent := Z) (Currency := string)) (slippage : Z)
  : Outcome Error CurrencyAmount := Returned (outputAmount t).
Definition sample_maximumAmountIn
    (t : InterfaceTrade (Percent := Z) (Currency := string)) (slippage : Z)
  : Outcome Error CurrencyAmount := Returned (inputAmount t).
Definition sample_useSupportedChainId (chain : option Z) : option Z := chain.

(** A statement of the hook section at the sample functions. *)
Abbreviation at_sample thm :=
  (thm tag_isClassicTrade tag_isUniswapXTrade sample_BigNumber_from
     sample_toNumber sample_currencyId sample_minimumAmountOut
     sample_maximumAmountIn sample_isEVMChain sample_useSupportedChainId
     sample_await sample_selectChain) (only parsing).

Definition sample_useSwapCallback :=
  at_sample (useSwapCallback (PermitSignature := string) (FiatValues := unit)).

(** The callback of a sample render. *)
Definition sample_callback (h : HookValues)
    (p : Props (Percent := Z) (Currency := string)
           (PermitSignature := string) (FiatValues := unit))
  : M SwapResult :=
  match sample_useSwapCallback h p with
  | Returned cb => cb
  | Thrown e => throw e
  end.

Definition on_mainnet : HookValues :=
  {| account := {| isConnected := true; address := Some "0x1111";
                   account_chainId := Some 1%Z |};
     swapChainId := Some 1%Z |}.

Definition on_another_chain : HookValues :=
  {| account := {| isConnected := true; address := Some "0x1111";
                   account_chainId := Some 10%Z |};
     swapChainId := Some 130%Z |}.

Definition props_of (t : option InterfaceTrade)
  : Props (Percent := Z) (Currency := string)
      (PermitSignature := string) (FiatValues := unit) :=
  {| trade := t; fiatValues := (); allowedSlippage := 50%Z;
     permitSignature := None |}.

Definition empty_world
  : World (Percent := Z) (Currency := string)
      (PermitSignature := string) (FiatValues := unit) :=
  {| orders := []; transactions := []; invoked := []; chain_requests := [] |}.

Ltac refute_invalid_input :=
  intros [H | [H | [H | [H | [(c & H1 & H2) | (H1 & c & H2 & H3)]]]]];
  cbn in *; simplify_eq; try done; try (by apply H1).

Lemma on_mainnet_valid
    (t : InterfaceTrade (Percent := Z) (Currency := string)) :
  ¬ invalid_input sample_isEVMChain sample_selectChain (Some t)
      (account on_mainnet) (swapChainId on_mainnet)
      (account_chainId (account on_mainnet)).
Proof. refute_invalid_input. Qed.

(** A wallet on another chain that cannot switch: the callback throws
    after asking for the swap chain, and no strategy is invoked. *)
Example wrong_chain_run :
  sample_callback on_another_chain (props_of (Some classic_trade)) empty_world
  = (Thrown WrongChain,
     {| orders := []; transactions := []; invoked := [];
        chain_requests := [130%Z] |}).
Proof. vm_compute. reflexivity. Qed.

(** A classic trade on mainnet: one transaction is recorded. *)
Example classic_run :
  let run := sample_callback on_mainnet (props_of (Some classic_trade))
               empty_world in
  run.1 = Returned classic_result
  ∧ orders run.2 = []
  ∧ transactions run.2
    = [{| added_response := response classic_result;
          added_info :=
            {| inputCurrencyId := "ETH"; outputCurrencyId := "USDC";
               isUniswapXOrder := false;
               amounts := ExactInputAmounts "1000" "3000" "3000" |};
          added_deadline := Some 1700000000%Z |}]
  ∧ is_uniswapX_strategy <$> invoked run.2 = [false].
Proof. vm_compute. repeat split; reflexivity. Qed.

(** A classic exact-output trade whose fee amount is not an integer. *)
Definition fractional_fee_trade
  : InterfaceTrade (Percent := Z) (Currency := string) :=
  {| fillType := Classic; tradeType := EXACT_OUTPUT;
     inputAmount := {| currency := "ETH"; quotient := 1000 |};
     outputAmount := {| currency := "USDC"; quotient := 3000 |};
     swapFee := Some {| recipient := "0xfee"; percent := 25%Z; amount := "1.5" |};
     offchainOrderType := DUTCH_AUCTION |}.

(** For that trade the call throws: no [flatFeeOptions] is returned. *)
Lemma getUniversalRouterFeeFields_spec_counterexample :
  tag_isClassicTrade (Some fractional_fee_trade) = true
  ∧ is_Some (swapFee fractional_fee_trade)
  ∧ tradeType fractional_fee_trade ≠ EXACT_INPUT
  ∧ getUniversalRouterFeeFields tag_isClassicTrade sample_BigNumber_from
      (Some fractional_fee_trade)
    = Thrown (Rejected "invalid BigNumber string")
  ∧ ¬ ∃ o, getUniversalRouterFeeFields tag_isClassicTrade sample_BigNumber_from
             (Some fractional_fee_trade)
           = Returned (Some (flatFeeOptions o)).
Proof.
  split_and!; [reflexivity | by eexists | discriminate | reflexivity |].
  intros (o & Ho). discriminate Ho.
Qed.

Lemma getUniversalRouterFeeFields_spec_witness :
  getUniversalRouterFeeFields tag_isClassicTrade sample_BigNumber_from (Some classic_trade)
  = Returned (Some (feeOptions {| fee := 25%Z; fee_recipient := "0xfee" |}))
  ∧ getUniversalRouterFeeFields tag_isClassicTrade sample_BigNumber_from
      (Some exact_output_trade)
    = Returned (Some (flatFeeOptions
        {| flat_amount := 7%Z; flat_recipient := "0xfee" |}))
  ∧ getUniversalRouterFeeFields tag_isClassicTrade sample_BigNumber_from
      (Some fractional_fee_trade)
    = Thrown (Rejected "invalid BigNumber string").
Proof.
  split_and!.
  - apply (proj2 (getUniversalRouterFeeFields_spec tag_isClassicTrade
                    sample_BigNumber_from (Some classic_trade))
             classic_trade _ eq_refl eq_refl eq_refl).
    reflexivity.
  - apply (proj2 (getUniversalRouterFeeFields_spec tag_isClassicTrade
                    sample_BigNumber_from (Some exact_output_trade))
             exact_output_trade _ eq_refl eq_refl eq_refl);
      [discriminate | reflexivity].
  - apply (proj2 (getUniversalRouterFeeFields_spec tag_isClassicTrade
                    sample_BigNumber_from (Some fractional_fee_trade))
             fractional_fee_trade _ eq_refl eq_refl eq_refl);
      [discriminate | reflexivity].
Defined.


Lemma useSwapCallback_selects_witness :
  delegates_to sample_await
    (sample_callback on_mainnet (props_of (Some auction_trade)))
    (uniswapXSwapCallback tag_isUniswapXTrade (props_of (Some auction_trade)))
    empty_world
  ∧ ¬ delegates_to sample_await
        (sample_callback on_mainnet (props_of (Some classic_trade)))
        (uniswapXSwapCallback tag_isUniswapXTrade
           (props_of (Some classic_trade)))
        empty_world.
Proof.
  split.
  - destruct (at_sample useSwapCallback_selects
                on_mainnet (props_of (Some auction_trade))
                (sample_callback on_mainnet (props_of (Some auction_trade)))
                eq_refl) as (feeFields & _ & Hsel).
    apply (proj1 (proj2 (Hsel empty_world) (on_mainnet_valid auction_trade))).
    reflexivity.
  - destruct (at_sample useSwapCallback_selects
                on_mainnet (props_of (Some classic_trade))
                (sample_callback on_mainnet (props_of (Some classic_trade)))
                eq_refl) as (feeFields & _ & Hsel).
    intros Hdel.
    apply (proj1 (proj2 (Hsel empty_world) (on_mainnet_valid classic_trade)))
      in Hdel.
    discriminate Hdel.
Defined.

(** A result of the router whose deadline is not a safe integer. *)
Definition late_result : SwapResult :=
  {| type := Classic;
     response := {| hash := Some "0xabc"; orderHash := None;
                    response_deadline := None; encodedOrder := None |};
     deadline := Some 9007199254740992%Z |}.

(** The callback of a sample render whose strategies return that result. *)
Definition late_callback (h : HookValues)
    (p : Props (Percent := Z) (Currency := string)
           (PermitSignature := string) (FiatValues := unit))
  : M SwapResult :=
  match useSwapCallback tag_isClassicTrade tag_isUniswapXTrade
          sample_BigNumber_from sample_toNumber sample_currencyId
          sample_minimumAmountOut sample_maximumAmountIn sample_isEVMChain
          sample_useSupportedChainId (λ _, Returned late_result)
          sample_selectChain h p with
  | Returned cb => cb
  | Thrown e => throw e
  end.

(** The strategy has returned that result, of fill type [Classic], on a
    valid input; the callback throws and no transaction is recorded. *)
Lemma useSwapCallback_records_counterexample :
  ¬ invalid_input sample_isEVMChain sample_selectChain (Some classic_trade)
      (account on_mainnet) (swapChainId on_mainnet)
      (account_chainId (account on_mainnet))
  ∧ type late_result = Classic
  ∧ (late_callback on_mainnet (props_of (Some classic_trade)) empty_world).1
    = Thrown (Rejected "overflow")
  ∧ transactions (late_callback on_mainnet (props_of (Some classic_trade))
                    empty_world).2 = []
  ∧ orders (late_callback on_mainnet (props_of (Some classic_trade))
              empty_world).2 = [].
Proof.
  split; [apply on_mainnet_valid |]. split_and!; reflexivity.
Qed.

Lemma useSwapCallback_records_witness :
  ((sample_callback on_mainnet (props_of (Some auction_trade)) empty_world).1
   = Returned auction_result
   ∧ ∃ o, orders (sample_callback on_mainnet (props_of (Some auction_trade))
                    empty_world).2 = [] ++ [o]
          ∧ transactions (sample_callback on_mainnet
                            (props_of (Some auction_trade)) empty_world).2 = []
          ∧ offerer o = Some "0x1111"
          ∧ order_orderHash o = Some "0xdef"
          ∧ expiry o = Some 1700000060%Z
          ∧ order_encodedOrder o = Some "0x1234")
  ∧ ((late_callback on_mainnet (props_of (Some classic_trade)) empty_world).1
     = Thrown (Rejected "overflow")
     ∧ orders (late_callback on_mainnet (props_of (Some classic_trade))
                 empty_world).2 = []
     ∧ transactions (late_callback on_mainnet (props_of (Some classic_trade))
                       empty_world).2 = []).
Proof.
  split.
  - destruct (at_sample useSwapCallback_records
                on_mainnet (props_of (Some auction_trade))
                (sample_callback on_mainnet (props_of (Some auction_trade)))
                None auction_result
                empty_world eq_refl eq_refl (on_mainnet_valid auction_trade)
                eq_refl) as (t & Ht & Hinfo & _).
    cbn in Ht. injection Ht as <-.
    exact (proj1 (Hinfo _ eq_refl) (or_introl eq_refl)).
  - destruct (useSwapCallback_records tag_isClassicTrade tag_isUniswapXTrade
                sample_BigNumber_from sample_toNumber sample_currencyId
                sample_minimumAmountOut sample_maximumAmountIn
                sample_isEVMChain sample_useSupportedChainId
                (λ _, Returned late_result) sample_selectChain
                on_mainnet (props_of (Some classic_trade))
                (late_callback on_mainnet (props_of (Some classic_trade)))
                (Some (feeOptions {| fee := 25%Z; fee_recipient := "0xfee" |}))
                late_result
                empty_world eq_refl eq_refl (on_mainnet_valid classic_trade)
                eq_refl) as (t & Ht & Hinfo & _).
    cbn in Ht. injection Ht as <-.
    apply (proj2 (proj2 (Hinfo _ eq_refl)
                    ltac:(discriminate) ltac:(discriminate)));
      reflexivity.
Defined.

Lemma useSwapCallback_validation_failure_witness :
  is_thrown (sample_callback on_mainnet (props_of None) empty_world).1 = true
  ∧ orders (sample_callback on_mainnet (props_of None) empty_world).2 = []
  ∧ transactions (sample_callback on_mainnet (props_of None) empty_world).2 = [].
Proof.
  apply (proj1 (at_sample useSwapCallback_validation_failure
                  on_mainnet (props_of None)
                  (sample_callback on_mainnet (props_of None))
                  empty_world eq_refl)).
  reflexivity.
Defined.

Definition sample_store : gmap string (TransactionDetails (TransactionStatus := string)) :=
  {[ "0xabc" := {| status := "success" |} ]}.

Lemma useSwapTransactionStatus_spec_witness :
  useSwapTransactionStatus sample_store (Some auction_result) = None
  ∧ useSwapTransactionStatus sample_store (Some classic_result) = Some "success".
Proof.
  split.
  - apply (proj1 (useSwapTransactionStatus_spec sample_store auction_result)).
    discriminate.
  - apply (proj2 (proj2 (useSwapTransactionStatus_spec sample_store
                           classic_result))
             "0xabc" {| status := "success" |}); reflexivity.
Defined.

(** ** More sample runs *)

(** A wallet on another chain that can switch to the swap chain. *)
Definition switching_to_mainnet : HookValues :=
  {| account := {| isConnected := true; address := Some "0x1111";
                   account_chainId := Some 10%Z |};
     swapChainId := Some 1%Z |}.

(** The callback of a sample render whose strategies reject. *)
Definition rejected_callback (h : HookValues)
    (p : Props (Percent := Z) (Currency := string)
           (PermitSignature := string) (FiatValues := unit))
  : M SwapResult :=
  match useSwapCallback tag_isClassicTrade tag_isUniswapXTrade
          sample_BigNumber_from sample_toNumber sample_currencyId
          sample_minimumAmountOut sample_maximumAmountIn sample_isEVMChain
          sample_useSupportedChainId (λ _, Thrown (Rejected "rejected"))
          sample_selectChain h p with
  | Returned cb => cb
  | Thrown e => throw e
  end.

Lemma useSwapCallback_strategy_error_witness :
  (rejected_callback on_mainnet (props_of (Some classic_trade)) empty_world).1
  = Thrown (Rejected "rejected")
  ∧ invoked (rejected_callback on_mainnet (props_of (Some classic_trade))
               empty_world).2
    = [] ++ [swapCallback tag_isClassicTrade tag_isUniswapXTrade
               (props_of (Some classic_trade))
               (Some (feeOptions {| fee := 25%Z; fee_recipient := "0xfee" |}))]
  ∧ orders (rejected_callback on_mainnet (props_of (Some classic_trade))
              empty_world).2 = []
  ∧ transactions (rejected_callback on_mainnet (props_of (Some classic_trade))
                    empty_world).2 = [].
Proof.
  exact (useSwapCallback_strategy_error tag_isClassicTrade tag_isUniswapXTrade
           sample_BigNumber_from sample_toNumber sample_currencyId
           sample_minimumAmountOut sample_maximumAmountIn sample_isEVMChain
           sample_useSupportedChainId (λ _, Thrown (Rejected "rejected"))
           sample_selectChain on_mainnet (props_of (Some classic_trade))
           (rejected_callback on_mainnet (props_of (Some classic_trade)))
           (Some (feeOptions {| fee := 25%Z; fee_recipient := "0xfee" |}))
           (Rejected "rejected") empty_world eq_refl eq_refl
           (on_mainnet_valid classic_trade) eq_refl).
Defined.

Lemma useSwapCallback_one_record_witness :
  (∃ result,
     (sample_callback on_mainnet (props_of (Some classic_trade))
        empty_world).1 = Returned result
     ∧ ((∃ o, orders (sample_callback on_mainnet
                        (props_of (Some classic_trade)) empty_world).2
              = [] ++ [o]
              ∧ transactions (sample_callback on_mainnet
                                (props_of (Some classic_trade)) empty_world).2
                = [])
        ∨ (∃ t, transactions (sample_callback on_mainnet
                                (props_of (Some classic_trade)) empty_world).2
                = [] ++ [t]
                ∧ orders (sample_callback on_mainnet
                            (props_of (Some classic_trade)) empty_world).2
                  = [])))
  ∨ (is_thrown (sample_callback on_mainnet (props_of (Some classic_trade))
                  empty_world).1 = true
     ∧ orders (sample_callback on_mainnet (props_of (Some classic_trade))
                 empty_world).2 = []
     ∧ transactions (sample_callback on_mainnet
                       (props_of (Some classic_trade)) empty_world).2 = []).
Proof.
  exact (at_sample useSwapCallback_one_record
           on_mainnet (props_of (Some classic_trade))
           (sample_callback on_mainnet (props_of (Some classic_trade)))
           empty_world eq_refl).
Defined.

Lemma useSwapCallback_flag_witness :
  ∃ o t,
    orders (sample_callback on_mainnet (props_of (Some auction_trade))
              empty_world).2 = [] ++ [o]
    ∧ isUniswapXOrder (swapInfo o) = true
    ∧ transactions (sample_callback on_mainnet (props_of (Some classic_trade))
                      empty_world).2 = [] ++ [t]
    ∧ isUniswapXOrder (added_info t) = false.
Proof.
  eexists _, _.
  split; [reflexivity |].
  split; [apply (proj1 (at_sample useSwapCallback_flag
                   on_mainnet (props_of (Some auction_trade))
                   (sample_callback on_mainnet (props_of (Some auction_trade)))
                   empty_world eq_refl)); reflexivity |].
  split; [reflexivity |].
  apply (proj2 (at_sample useSwapCallback_flag
                  on_mainnet (props_of (Some classic_trade))
                  (sample_callback on_mainnet (props_of (Some classic_trade)))
                  empty_world eq_refl)); reflexivity.
Defined.

Lemma useSwapCallback_chain_requests_witness :
  (chain_requests (sample_callback switching_to_mainnet
                     (props_of (Some auction_trade)) empty_world).2 = []
   ∧ (Some 10%Z = Some 1%Z
      ∨ ¬ ∃ c, passes_checks sample_isEVMChain (Some auction_trade)
                 (account switching_to_mainnet) (Some 1%Z) c))
  ∨ (∃ c, chain_requests (sample_callback switching_to_mainnet
                            (props_of (Some auction_trade)) empty_world).2
          = [] ++ [c]
          ∧ passes_checks sample_isEVMChain (Some auction_trade)
              (account switching_to_mainnet) (Some 1%Z) c
          ∧ Some 10%Z ≠ Some 1%Z).
Proof.
  exact (at_sample useSwapCallback_chain_requests
           switching_to_mainnet (props_of (Some auction_trade))
           (sample_callback switching_to_mainnet (props_of (Some auction_trade)))
           empty_world eq_refl).
Defined.

Lemma useSwapCallback_order_chain_witness :
  ∃ o,
    orders (sample_callback switching_to_mainnet (props_of (Some auction_trade))
              empty_world).2 = [] ++ [o]
    ∧ order_chainId o = Some 10%Z
    ∧ (order_chainId o = Some 1%Z
       ↔ chain_requests (sample_callback switching_to_mainnet
                           (props_of (Some auction_trade)) empty_world).2 = []).
Proof.
  eexists. split; [reflexivity |].
  apply (at_sample useSwapCallback_order_chain
           switching_to_mainnet (props_of (Some auction_trade))
           (sample_callback switching_to_mainnet (props_of (Some auction_trade)))
           empty_world _ eq_refl eq_refl).
Defined.

Lemma useSwapCallback_first_error_witness :
  (sample_callback on_mainnet (props_of None) empty_world).1
  = Thrown MissingTrade
  ∧ (sample_callback on_another_chain (props_of (Some classic_trade))
       empty_world).1
    = Thrown WrongChain.
Proof.
  split.
  - apply (proj1 (at_sample useSwapCallback_first_error
                    on_mainnet (props_of None)
                    (sample_callback on_mainnet (props_of None))
                    empty_world eq_refl)).
    reflexivity.
  - destruct (at_sample useSwapCallback_first_error
                on_another_chain (props_of (Some classic_trade))
                (sample_callback on_another_chain
                   (props_of (Some classic_trade)))
                empty_world eq_refl) as (_ & _ & _ & Hchain).
    destruct (Hchain 130%Z (ex_intro _ classic_trade eq_refl)
                eq_refl eq_refl eq_refl eq_refl) as [_ Hevm].
    destruct (Hevm eq_refl) as [Hwrong _]; [discriminate |].
    apply Hwrong. reflexivity.
Defined.

Lemma useSwapCallback_strategy_args_witness :
  ∃ a,
    invoked (sample_callback on_mainnet (props_of (Some classic_trade))
               empty_world).2
    = [] ++ [useUniversalRouterSwapCallback a]
    ∧ tag_isUniswapXTrade (Some classic_trade) = false
    ∧ ur_trade a = Some classic_trade
    ∧ slippageTolerance (ur_options a) = 50%Z
    ∧ permit (ur_options a) = None
    ∧ (is_Some (feeField (ur_options a)) →
       ∃ t f, ur_trade a = Some t ∧ Some classic_trade = Some t
              ∧ swapFee t = Some f).
Proof.
  eexists. split; [reflexivity |].
  exact (at_sample useSwapCallback_strategy_args
           on_mainnet (props_of (Some classic_trade))
           (sample_callback on_mainnet (props_of (Some classic_trade)))
           empty_world _ eq_refl eq_refl).
Defined.

End SwapCallback.
